(** * go-idx: the signed-message engine of the iDeal / iDIN client

    A shallow embedding of [client.go], [ideal.go] and [idin.go] and the
    properties of the message builder, the signer and the response
    interpreter.

    The element trees are those of [github.com/beevik/etree]; its operations
    are embedded from their documented behaviour.  The collaborators the
    package treats as capabilities (clock, HTTP transport, XML reader and
    writer, XML signature, XML encryption, SHA-1) are the fields of the class
    [Collaborators]. *)

From Stdlib Require Import Strings.String Strings.Ascii Strings.Byte ZArith NArith List DecimalString.
From stdpp Require Import base option list strings gmap.

Local Open Scope string_scope.
Local Open Scope list_scope.

(** ** Outcomes of a Go call

    A Go function of the package returns a value, returns a non-nil [error]
    (with a nil value beside it), or panics. *)

Record AcquirerError := mkAcquirerError {
  ErrorCode : string;
  ErrorMessage : string;
  ErrorDetail : string;
  ConsumerMessage : string
}.

Definition AcquirerError_Error (e : AcquirerError) : string :=
  "idx: " +:+ ErrorCode e +:+ ": " +:+ ErrorMessage e +:+ " (" +:+ ErrorDetail e +:+ ")".

(** The collaborator an opaque [error] value comes from. *)
Inductive origin := FromHTTP | FromXMLReader | FromXMLWriter | FromSigner | FromValidator | FromDecryptor.

Inductive error :=
| ErrorString (s : string)            (* errors.New(s) *)
| ErrAcquirer (e : AcquirerError)     (* &AcquirerError{...} *)
| ErrExternal (o : origin) (s : string).

Inductive panic :=
| NilDereference
| IndexOutOfRange
| TypeAssertion
| PanicError (e : error)              (* panic(err) *)
| NoTree.                             (* the store holds no finite tree at a pointer *)

Inductive result (A : Type) :=
| Ok (a : A)
| Fail (e : error)
| Panic (p : panic).
Arguments Ok {A} a.
Arguments Fail {A} e.
Arguments Panic {A} p.

Definition result_bind {A B} (f : A → result B) (r : result A) : result B :=
  match r with
  | Ok a => f a
  | Fail e => Fail e
  | Panic p => Panic p
  end.

#[global] Instance result_ret : MRet result := fun A a => Ok a.
#[global] Instance result_mbind : MBind result := fun A B f r => result_bind f r.

(** [p.method()] on a pointer that may be nil. *)
Definition deref {A} (o : option A) : result A :=
  match o with
  | Some a => Ok a
  | None => Panic NilDereference
  end.

(** [s[i]] on a slice. *)
Definition index {A} (l : list A) (i : nat) : result A :=
  match l !! i with
  | Some a => Ok a
  | None => Panic IndexOutOfRange
  end.

(** ** Strings *)

Module Strings.

(** [strings.IndexByte(s, c)] as the split it is used for: the text before the
    first [c] and the text after it, when [c] occurs. *)
Fixpoint cut (c : ascii) (s : string) : option (string * string) :=
  match s with
  | EmptyString => None
  | String a rest =>
      if Ascii.eqb a c then Some (EmptyString, rest)
      else match cut c rest with
           | Some (l, r) => Some (String a l, r)
           | None => None
           end
  end.

(** [strings.Split(s, sep)] for a one-byte separator. *)
Fixpoint split_go (c : ascii) (s : string) (cur : string) : list string :=
  match s with
  | EmptyString => [cur]
  | String a rest =>
      if Ascii.eqb a c then cur :: split_go c rest EmptyString
      else split_go c rest (cur +:+ String a EmptyString)
  end.
Definition Split (s : string) (c : ascii) : list string := split_go c s EmptyString.

(** [strings.ToUpper] on ASCII text: the letters a..z are mapped to A..Z. *)
Definition upper (a : ascii) : ascii :=
  let n := N_of_ascii a in
  if (97 <=? n)%N && (n <=? 122)%N then ascii_of_N (n - 32) else a.

Fixpoint ToUpper (s : string) : string :=
  match s with
  | EmptyString => EmptyString
  | String a rest => String (upper a) (ToUpper rest)
  end.

(** [strconv.Itoa]. *)
Definition Itoa (n : Z) : string := NilZero.string_of_int (Z.to_int n).

End Strings.

(** [encoding/hex]. *)
Module Hex.

Definition hextable : string := "0123456789abcdef".

Definition digit (n : N) : ascii :=
  match String.get (N.to_nat n) hextable with
  | Some a => a
  | None => "0"%char
  end.

Fixpoint EncodeToString (src : list byte) : string :=
  match src with
  | [] => EmptyString
  | b :: rest =>
      let v := Byte.to_N b in
      String (digit (N.shiftr v 4)) (String (digit (N.land v 15)) (EncodeToString rest))
  end.

End Hex.

(** ** Element trees (etree) *)

Module Etree.

Record Attr := mkAttr {
  aSpace : string;
  aKey : string;
  aValue : string
}.

(** An element and its child tokens.  A received or signed document is a
    value of this type. *)
Inductive Element :=
| mkElement (space tag : string) (attrs : list Attr) (children : list Token)
with Token :=
| TElement (e : Element)
| TCharData (data : string)
| TComment (data : string)
| TDirective (data : string)
| TProcInst (target inst : string).

Definition Space (e : Element) : string := let 'mkElement s _ _ _ := e in s.
Definition Tag (e : Element) : string := let 'mkElement _ t _ _ := e in t.
Definition Attrs (e : Element) : list Attr := let 'mkElement _ _ a _ := e in a.
Definition Child (e : Element) : list Token := let 'mkElement _ _ _ c := e in c.

Definition token_element (t : Token) : option Element :=
  match t with
  | TElement e => Some e
  | _ => None
  end.

(** [etree.spaceDecompose]: namespace prefix and local name. *)
Definition spaceDecompose (str : string) : string * string :=
  match Strings.cut ":"%char str with
  | None => (EmptyString, str)
  | Some (space, key) => (space, key)
  end.

(** [etree.spaceMatch]: an empty prefix in the query matches every prefix. *)
Definition spaceMatch (a b : string) : bool :=
  if String.eqb a EmptyString then true else String.eqb a b.

(** [e.ChildElements()]. *)
Definition ChildElements (e : Element) : list Element :=
  omap token_element (Child e).

(** [e.Text()]: the character data immediately following the opening tag. *)
Definition Text (e : Element) : string :=
  match Child e with
  | TCharData data :: _ => data
  | _ => EmptyString
  end.

(** [e.SelectAttrValue(key, dflt)]. *)
Definition SelectAttrValue (e : Element) (key dflt : string) : string :=
  let '(space, skey) := spaceDecompose key in
  match List.find (fun a => spaceMatch space (aSpace a) && String.eqb skey (aKey a)) (Attrs e) with
  | Some a => aValue a
  | None => dflt
  end.

(** *** Paths

    The paths of the package are sequences of tag selectors, absolute (a
    leading slash: the search starts at the topmost ancestor) or relative. *)

Record Path := mkPath {
  absolute : bool;
  segments : list (string * string)
}.

(** A piece of a path that is a tag selector: not [.], [..], [*] or the
    empty piece of [//], and without a filter in brackets or a quoted text.
    The package uses tag selectors only; other paths are outside the model
    and find nothing. *)
Definition plain_tag (piece : string) : bool :=
  negb (String.eqb piece "." || String.eqb piece ".." || String.eqb piece "*"
        || String.eqb piece EmptyString
        || bool_decide (is_Some (Strings.cut "["%char piece))
        || bool_decide (is_Some (Strings.cut "'"%char piece))
        || bool_decide (is_Some (Strings.cut (ascii_of_N 34) piece))).

Definition compilePath (path : string) : option Path :=
  let '(abs, rest) :=
    match path with
    | String "/"%char rest => (true, rest)
    | _ => (false, path)
    end in
  let pieces := Strings.Split rest "/"%char in
  if forallb plain_tag pieces
  then Some (mkPath abs (spaceDecompose <$> pieces))
  else None.

(** The test of [selectChildrenByTag.apply] on one child. *)
Definition tagMatch (seg : string * string) (c : Element) : bool :=
  spaceMatch seg.1 (Space c) && String.eqb seg.2 (Tag c).

(** [selectChildrenByTag.apply]. *)
Definition selectChildrenByTag (seg : string * string) (e : Element) : list Element :=
  List.filter (tagMatch seg) (ChildElements e).

(** [pather.traverse] and [pather.eval]: the queue is first-in first-out and
    every segment selects children, so the candidates of one level are
    expanded in order and the matches come out in document order. *)
Fixpoint traverse (segs : list (string * string)) (cands : list Element) : list Element :=
  match segs with
  | [] => cands
  | seg :: rest => traverse rest (cands ≫= selectChildrenByTag seg)
  end.

(** [e.FindElements(path)] for an element [e] whose topmost ancestor is
    [root]: a path with a leading slash is resolved from [root]
    ([selectRoot.apply] follows the parent pointers up), any other path from
    [e].  A tree value holds each element once, so the pather keeps every
    match. *)
Definition FindElementsIn (root e : Element) (path : string) : list Element :=
  match compilePath path with
  | Some p => traverse (segments p) [if absolute p then root else e]
  | None => []
  end.

Definition FindElementIn (root e : Element) (path : string) : option Element :=
  head (FindElementsIn root e path).

(** The same on an element that has no parent. *)
Definition FindElements (e : Element) (path : string) : list Element := FindElementsIn e e path.
Definition FindElement (e : Element) (path : string) : option Element := FindElementIn e e path.

(** *** Pointers into a tree value

    A pointer into a tree that is held as a value is the position of the
    element: the indices of the child tokens on the way down from the top. *)

Definition pos := list nat.

Fixpoint subtree (e : Element) (p : pos) : option Element :=
  match p with
  | [] => Some e
  | i :: rest =>
      match Child e !! i with
      | Some (TElement c) => subtree c rest
      | _ => None
      end
  end.

Definition with_children (e : Element) (c : list Token) : Element :=
  mkElement (Space e) (Tag e) (Attrs e) c.

(** An in-place edit [f] of the element at position [p]. *)
Fixpoint update (f : Element → Element) (e : Element) (p : pos) : Element :=
  match p with
  | [] => f e
  | i :: rest =>
      match Child e !! i with
      | Some (TElement c) => with_children e (<[i := TElement (update f c rest)]> (Child e))
      | _ => e
      end
  end.

(** The positions [selectChildrenByTag] selects below [e], then the positions
    of a whole path, in the order of [traverse]. *)
Fixpoint findPos_children (go : Element → list pos) (seg : string * string)
    (i : nat) (c : list Token) : list pos :=
  match c with
  | [] => []
  | TElement x :: rest =>
      (if tagMatch seg x then cons i <$> go x else [])
      ++ findPos_children go seg (S i) rest
  | _ :: rest => findPos_children go seg (S i) rest
  end.

Fixpoint findPos (segs : list (string * string)) (e : Element) : list pos :=
  match segs with
  | [] => [[]]
  | seg :: rest => findPos_children (findPos rest) seg 0 (Child e)
  end.

(** [e.FindElement(path)] on an element without parent, as a pointer. *)
Definition FindElementPos (e : Element) (path : string) : option pos :=
  match compilePath path with
  | Some p => head (findPos (segments p) e)
  | None => None
  end.

(** The loop [for _, child := range e.ChildElements() { e.RemoveChild(child) }]:
    each child element is removed by identity, the other tokens stay. *)
Definition RemoveChildElements (e : Element) : Element :=
  with_children e (List.filter (fun t => negb (bool_decide (is_Some (token_element t)))) (Child e)).

(** [e.CreateElement(tag).SetText(text)]. *)
Definition CreateTextElement (e : Element) (tag text : string) : Element :=
  let '(space, stag) := spaceDecompose tag in
  with_children e (Child e ++ [TElement (mkElement space stag [] [TCharData text])]).

(** [etree.NewDocument()] and [doc.SetRoot(e)]: the first child element of
    the document is replaced, or [e] is appended when there is none. *)
Definition NewDocument : Element := mkElement EmptyString EmptyString [] [].

Fixpoint SetRoot_go (e : Element) (c : list Token) : option (list Token) :=
  match c with
  | [] => None
  | TElement _ :: rest => Some (TElement e :: rest)
  | t :: rest => cons t <$> SetRoot_go e rest
  end.

Definition SetRoot (d e : Element) : Element :=
  match SetRoot_go e (Child d) with
  | Some c => with_children d c
  | None => with_children d (Child d ++ [TElement e])
  end.

End Etree.

(** ** Building a message in place

    A request is built through several pointers into one tree ([msg],
    [merchantEl], [issuerEl], ...), and [InsertChild] compares tokens by
    identity: the builder runs on a store of nodes addressed by pointers.
    [run] starts from an empty store and reads the finished tree back. *)

Module Build.
Import Etree.

(** A [*etree.Element]: nil, or the address of a node. *)
Inductive ptr :=
| nil
| addr (n : nat).

(** The tokens the builder creates: elements and character data. *)
Inductive Tok :=
| PElement (n : nat)
| PCharData (data : string).

Record Node := mkNode {
  nSpace : string;
  nTag : string;
  nAttr : list Attr;
  nChild : list Tok;
  nParent : ptr
}.

Definition Store := list Node.

Definition B (A : Type) : Type := Store → result (A * Store).

#[global] Instance B_ret : MRet B := fun A a h => Ok (a, h).
#[global] Instance B_bind : MBind B := fun A C f m h =>
  match m h with
  | Ok (a, h') => f a h'
  | Fail e => Fail e
  | Panic p => Panic p
  end.

(** Reading a field through a pointer. *)
Definition get (p : ptr) : B Node := fun h =>
  match p with
  | nil => Panic NilDereference
  | addr n =>
      match h !! n with
      | Some x => Ok (x, h)
      | None => Panic NoTree
      end
  end.

Definition put (p : ptr) (x : Node) : B unit := fun h =>
  match p with
  | nil => Panic NilDereference
  | addr n => Ok (tt, <[n := x]> h)
  end.

Definition alloc (x : Node) : B nat := fun h => Ok (length h, h ++ [x]).

Definition set_child (x : Node) (c : list Tok) : Node :=
  mkNode (nSpace x) (nTag x) (nAttr x) c (nParent x).
Definition set_attr (x : Node) (a : list Attr) : Node :=
  mkNode (nSpace x) (nTag x) a (nChild x) (nParent x).
Definition set_parent (x : Node) (q : ptr) : Node :=
  mkNode (nSpace x) (nTag x) (nAttr x) (nChild x) q.

(** [e.addChild(t)]. *)
Definition addChild (e : ptr) (t : Tok) : B unit :=
  x ← get e; put e (set_child x (nChild x ++ [t])).

(** [&etree.Element{Tag: tag}]: the tag is stored as given, without a parent. *)
Definition Element_lit (tag : string) : B ptr :=
  n ← alloc (mkNode EmptyString tag [] [] nil); mret (addr n).

(** [etree.newElement(space, tag, parent)]: the new element is added to the
    parent when there is one. *)
Definition newElement (space tag : string) (parent : ptr) : B ptr :=
  n ← alloc (mkNode space tag [] [] parent);
  match parent with
  | nil => mret tt
  | addr _ => addChild parent (PElement n)
  end;;
  mret (addr n).

(** [e.CreateElement(tag)]. *)
Definition CreateElement (e : ptr) (tag : string) : B ptr :=
  let '(space, stag) := spaceDecompose tag in
  newElement space stag e.

(** [e.SetText(text)]: the leading character data is overwritten, or new
    character data is put in front of the children. *)
Definition SetText (e : ptr) (text : string) : B unit :=
  x ← get e;
  match nChild x with
  | PCharData _ :: rest => put e (set_child x (PCharData text :: rest))
  | c => put e (set_child x (PCharData text :: c))
  end.

Fixpoint createAttr_go (space key value : string) (attrs : list Attr) : option (list Attr) :=
  match attrs with
  | [] => None
  | a :: rest =>
      if String.eqb space (aSpace a) && String.eqb key (aKey a)
      then Some (mkAttr (aSpace a) (aKey a) value :: rest)
      else cons a <$> createAttr_go space key value rest
  end.

(** [e.CreateAttr(key, value)]: an attribute of that name is overwritten,
    otherwise one is appended. *)
Definition CreateAttr (e : ptr) (key value : string) : B unit :=
  let '(space, skey) := spaceDecompose key in
  x ← get e;
  match createAttr_go space skey value (nAttr x) with
  | Some attrs => put e (set_attr x attrs)
  | None => put e (set_attr x (nAttr x ++ [mkAttr space skey value]))
  end.

(** [e.Text()]. *)
Definition Text (e : ptr) : B string :=
  x ← get e;
  mret (match nChild x with
        | PCharData data :: _ => data
        | _ => EmptyString
        end).

Fixpoint remove_first (t : nat) (c : list Tok) : option (list Tok) :=
  match c with
  | [] => None
  | PElement q :: rest =>
      if Nat.eqb q t then Some rest else cons (PElement q) <$> remove_first t rest
  | tok :: rest => cons tok <$> remove_first t rest
  end.

(** [e.RemoveChild(t)] for an element [t]: the first child identical to [t]
    is taken out and loses its parent. *)
Definition RemoveChild (e : ptr) (t : nat) : B unit :=
  x ← get e;
  match remove_first t (nChild x) with
  | Some c =>
      put e (set_child x c);;
      tx ← get (addr t);
      put (addr t) (set_parent tx nil)
  | None => mret tt
  end.

Fixpoint insert_before (ex t : nat) (c : list Tok) : option (list Tok) :=
  match c with
  | [] => None
  | PElement q :: rest =>
      if Nat.eqb q ex then Some (PElement t :: PElement q :: rest)
      else cons (PElement q) <$> insert_before ex t rest
  | tok :: rest => cons tok <$> insert_before ex t rest
  end.

(** [e.InsertChild(ex, t)] for elements [ex] and [t]: [t] is first removed
    from its current parent, then put before [ex] among the children of [e],
    or at their end when [ex] is nil or not one of them. *)
Definition InsertChild (e : ptr) (ex t : ptr) : B unit :=
  tx ← get t;
  match t with
  | nil => mret tt
  | addr tn =>
      match nParent tx with
      | nil => mret tt
      | parent => RemoveChild parent tn
      end;;
      tx ← get t;
      put t (set_parent tx e);;
      x ← get e;
      match ex with
      | nil => addChild e (PElement tn)
      | addr exn =>
          match insert_before exn tn (nChild x) with
          | Some c => put e (set_child x c)
          | None => addChild e (PElement tn)
          end
      end
  end.

(** [selectRoot.apply]: follow the parent pointers to the topmost ancestor. *)
Fixpoint rootOf (fuel : nat) (h : Store) (n : nat) : option nat :=
  match fuel with
  | O => None
  | S fuel' =>
      match h !! n with
      | None => None
      | Some x =>
          match nParent x with
          | nil => Some n
          | addr q => rootOf fuel' h q
          end
      end
  end.

Definition tok_element (t : Tok) : option nat :=
  match t with
  | PElement n => Some n
  | PCharData _ => None
  end.

Definition selectChildrenByTag (h : Store) (seg : string * string) (n : nat) : list nat :=
  match h !! n with
  | None => []
  | Some x =>
      List.filter
        (fun q => match h !! q with
                  | Some c => spaceMatch seg.1 (nSpace c) && String.eqb seg.2 (nTag c)
                  | None => false
                  end)
        (omap tok_element (nChild x))
  end.

Fixpoint traverse (h : Store) (segs : list (string * string)) (cands : list nat) : list nat :=
  match segs with
  | [] => cands
  | seg :: rest => traverse h rest (cands ≫= selectChildrenByTag h seg)
  end.

Definition first_match (l : list nat) : ptr :=
  match remove_dups l with
  | [] => nil
  | n :: _ => addr n
  end.

(** [e.FindElement(path)]: the first match, nil when there is none.  The
    pather keeps each matched pointer once. *)
Definition FindElement (e : ptr) (path : string) : B ptr := fun h =>
  match e with
  | nil => Panic NilDereference
  | addr n =>
      match compilePath path with
      | None => Ok (nil, h)
      | Some p =>
          if absolute p then
            match rootOf (length h) h n with
            | Some r => Ok (first_match (traverse h (segments p) [r]), h)
            | None => Panic NoTree
            end
          else Ok (first_match (traverse h (segments p) [n]), h)
      end
  end.

(** The tree below an address. *)
Fixpoint reify (fuel : nat) (h : Store) (n : nat) : option Element :=
  match fuel with
  | O => None
  | S fuel' =>
      x ← h !! n;
      children ← mapM (fun t => match t with
                                | PCharData data => Some (TCharData data)
                                | PElement q => TElement <$> reify fuel' h q
                                end) (nChild x);
      Some (mkElement (nSpace x) (nTag x) (nAttr x) children)
  end.

(** Run a builder on a fresh store and hand out the tree it returns. *)
Definition run (m : B ptr) : result Element :=
  match m [] with
  | Ok (addr n, h) =>
      match reify (length h) h n with
      | Some e => Ok e
      | None => Panic NoTree
      end
  | Ok (nil, _) => Panic NilDereference
  | Fail e => Fail e
  | Panic p => Panic p
  end.

End Build.

(** ** The package [idx] *)

Import Etree.

(** [TransactionStatus] (client.go). *)
Inductive TransactionStatus :=
| InvalidStatus
| Success
| Cancelled
| Expired
| Failure
| Open.

#[global] Instance TransactionStatus_eq_dec : EqDecision TransactionStatus.
Proof. solve_decision. Defined.

Definition TransactionStatus_String (status : TransactionStatus) : string :=
  match status with
  | Success => "Success"
  | Cancelled => "Cancelled"
  | Expired => "Expired"
  | Failure => "Failure"
  | Open => "Open"
  | InvalidStatus => "InvalidStatus"
  end.

(** [crypto.PrivateKey]: the identity-variant decryption asserts an RSA key. *)
Inductive PrivateKey :=
| RSAPrivateKey (key : list byte)
| OtherPrivateKey.

(** [tls.Certificate]: the DER chain, leaf first, and the private key. *)
Record tls_Certificate := mkCertificate {
  Certificate_chain : list (list byte);
  Certificate_PrivateKey : PrivateKey
}.

Record CommonClient := mkCommonClient {
  BaseURL : string;
  MerchantID : string;
  SubID : string;
  ReturnURL : string;
  Certificate : tls_Certificate;
  AcquirerCert : list byte
}.

Record IDealClient := mkIDealClient { IDeal_CommonClient :> CommonClient }.
Record IDINClient := mkIDINClient { IDIN_CommonClient :> CommonClient }.

Record Issuer := mkIssuer {
  IssuerID : string;
  IssuerName : string
}.

Record Directory := mkDirectory {
  Issuers : gmap string (list Issuer)
}.

Record IDealTransactionStatus := mkIDealTransactionStatus {
  IDeal_Status : TransactionStatus;
  ConsumerName : string;
  ConsumerIBAN : string;
  ConsumerBIC : string;
  Amount : string;
  Currency : string
}.

(** [Attributes] is a nil map ([None]) unless the status is [Success]. *)
Record IDINTransactionStatus := mkIDINTransactionStatus {
  IDIN_Status : TransactionStatus;
  Attributes : option (gmap string string)
}.

(** A transaction holds its message as the finished tree: after
    [NewTransaction] the message is only read. *)
Record IDealTransaction := mkIDealTransaction {
  IDeal_client : IDealClient;
  IDeal_msg : Element;
  IDeal_issuerAuthenticationURL : string;
  IDeal_transactionID : string
}.

Record IDINTransaction := mkIDINTransaction {
  IDIN_client : IDINClient;
  IDIN_msg : Element;
  IDIN_issuerAuthenticationURL : string;
  IDIN_transactionID : string
}.

(** [IDINAttribute] bits (idin.go). *)
Definition IDINServiceIDBIN : Z := Z.shiftl 1 14.
Definition IDINServiceIDName : Z := Z.shiftl 1 12.
Definition IDINServiceIDAddress : Z := Z.shiftl 1 10.
Definition IDINServiceIDDateOfBirth : Z := Z.shiftl 7 6.
Definition IDINServiceIDGender : Z := Z.shiftl 1 4.
Definition IDINServiceIDTelephone : Z := Z.shiftl 1 2.
Definition IDINServiceIDEmail : Z := Z.shiftl 1 1.

Definition quote : string := String (ascii_of_N 34) EmptyString.
Definition newline : string := String (ascii_of_N 10) EmptyString.

(** [xml.Header]. *)
Definition xml_Header : string :=
  "<?xml version=" +:+ quote +:+ "1.0" +:+ quote +:+ " encoding=" +:+ quote +:+ "UTF-8" +:+ quote +:+ "?>" +:+ newline.

(** *** Calls to the collaborators

    What leaves the process is recorded: a call that posts a request, has a
    signature validated or has an element decrypted appends an event. *)

Inductive Event :=
| EvPost (url body : string)
| EvValidate (el : Element)
| EvDecrypt (el : Element).

Definition M (A : Type) : Type := list Event → result A * list Event.

#[global] Instance M_ret : MRet M := fun A a tr => (Ok a, tr).
#[global] Instance M_bind : MBind M := fun A C f m tr =>
  match m tr with
  | (Ok a, tr') => f a tr'
  | (Fail e, tr') => (Fail e, tr')
  | (Panic p, tr') => (Panic p, tr')
  end.

Definition lift {A} (r : result A) : M A := fun tr => (r, tr).
Definition emit (ev : Event) : M unit := fun tr => (Ok tt, tr ++ [ev]).

(** A loop over a slice whose body may return early or panic. *)
Fixpoint forEach {A S} (l : list A) (body : A → S → result S) (s : S) : result S :=
  match l with
  | [] => Ok s
  | x :: rest => s' ← body x s; forEach rest body s'
  end.

Fixpoint forEachM {A S} (l : list A) (body : A → S → M S) (s : S) : M S :=
  match l with
  | [] => mret s
  | x :: rest => s' ← body x s; forEachM rest body s'
  end.

Record Response := mkResponse {
  StatusCode : Z;
  Status : string;
  Body : string
}.

(** The capabilities the package consumes. *)
Class Collaborators := {
  (** [time.Now().UTC().Format(time.RFC3339)]. *)
  now : string;
  (** [http.NewRequest(method, url, body)]: the error, if any. *)
  http_NewRequest : string → string → string → option error;
  (** [http.DefaultClient.Do(req)] for a request with these headers. *)
  http_Do : string → list (string * string) → string → result Response;
  (** [doc.ReadFrom(resp.Body)] on a new document. *)
  etree_ReadFrom : string → result Element;
  (** [doc.WriteToString()]. *)
  etree_WriteToString : Element → result string;
  (** [ctx.SignEnveloped(msg)] for the signing context of [signMessage]. *)
  dsig_SignEnveloped : tls_Certificate → Element → result Element;
  (** [ctx.Validate(el)] for the one trusted certificate: a detached copy of
      the element, or an error. *)
  dsig_Validate : list byte → Element → result Element;
  (** [xmlenc.DecryptElement(el, key)]. *)
  xmlenc_DecryptElement : Element → list byte → result Element;
  (** [sha1.Sum(data)]. *)
  sha1_Sum : list byte → list byte
}.

Section Engine.
Context `{Collaborators}.

(** [CommonClient.createMessage] (client.go:97). *)
Definition CommonClient_createMessage (c : CommonClient) (tag : string) : Build.B Build.ptr :=
  msg ← Build.Element_lit tag;
  ts ← Build.CreateElement msg "createDateTimestamp";
  Build.SetText ts now;;
  merchant ← Build.CreateElement msg "Merchant";
  mid ← Build.CreateElement merchant "merchantID";
  Build.SetText mid (MerchantID c);;
  sid ← Build.CreateElement merchant "subID";
  Build.SetText sid (SubID c);;
  mret msg.

Definition request_headers : list (string * string) :=
  [("Content-Type", "text/xml; charset=" +:+ quote +:+ "utf-8" +:+ quote);
   ("Version", "1.0");
   ("Encoding", "UTF-8")].

(** [CommonClient.request] (client.go:108). *)
Definition CommonClient_request (c : CommonClient) (msg : string) : M Element :=
  match http_NewRequest "POST" (BaseURL c) msg with
  | Some err => lift (Fail err)
  | None =>
      emit (EvPost (BaseURL c) msg);;
      resp ← lift (http_Do (BaseURL c) request_headers msg);
      if negb (StatusCode resp =? 200)%Z
      then lift (Fail (ErrorString ("idx: HTTP error: " +:+ Status resp)))
      else lift (etree_ReadFrom (Body resp))
  end.

(** [CommonClient.signMessage] (client.go:135).  [signed] belongs to this
    call; the edits made through [keyInfo] are edits at its position. *)
Definition CommonClient_signMessage (c : CommonClient) (msg : Element) : result string :=
  signed ← match dsig_SignEnveloped (Certificate c) msg with
           | Ok signed => Ok signed
           | Fail err => Panic (PanicError err)
           | Panic p => Panic p
           end;
  leaf ← index (Certificate_chain (Certificate c)) 0;
  let keyName := sha1_Sum leaf in
  let keyNameString := Strings.ToUpper (Hex.EncodeToString keyName) in
  keyInfo ← deref (FindElementPos signed "/Signature/KeyInfo");
  (* remove existing children *)
  let signed := update RemoveChildElements signed keyInfo in
  (* Insert custom KeyName element *)
  let signed := update (fun k => CreateTextElement k "KeyName" keyNameString) signed keyInfo in
  let doc := SetRoot NewDocument signed in
  str ← match etree_WriteToString doc with
        | Ok str => Ok str
        | Fail err => Panic (PanicError err)
        | Panic p => Panic p
        end;
  Ok (xml_Header +:+ str).

(** [CommonClient.validateMessage] (client.go:165). *)
Definition CommonClient_validateMessage (c : CommonClient) (msg : Element) : M Element :=
  el ← lift (index (ChildElements msg) 0);
  emit (EvValidate el);;
  lift (dsig_Validate (AcquirerCert c) el).

(** [directory.Issuers[k] = append(directory.Issuers[k], x)]. *)
Definition Issuers_append (d : Directory) (k : string) (x : Issuer) : Directory :=
  mkDirectory (<[k := default [] (Issuers d !! k) ++ [x]]> (Issuers d)).

(** [CommonClient.parseDirectoryRequest] (client.go:173).  [msg] is the
    detached tree [validateMessage] returned, so it is the topmost ancestor
    of every element found in it. *)
Definition CommonClient_parseDirectoryRequest (c : CommonClient) (msg : Element) : result Directory :=
  forEach (FindElements msg "/Directory/Country") (fun countryEl directory =>
    countryNames ← deref (FindElementIn msg countryEl "/Directory/Country/countryNames");
    let countryName := Text countryNames in
    forEach (FindElementsIn msg countryEl "/Directory/Country/Issuer") (fun issuerEl directory =>
      idEl ← deref (FindElementIn msg issuerEl "/Directory/Country/Issuer/issuerID");
      let issuerID := Text idEl in
      nameEl ← deref (FindElementIn msg issuerEl "/Directory/Country/Issuer/issuerName");
      let issuerName := Text nameEl in
      Ok (Issuers_append directory countryName (mkIssuer issuerID issuerName)))
      directory)
    (mkDirectory ∅).


(** *** iDeal (ideal.go) *)

(** [IDealClient.createMessage] (ideal.go:32). *)
Definition IDealClient_createMessage (c : IDealClient) (tag : string) : Build.B Build.ptr :=
  msg ← CommonClient_createMessage c tag;
  Build.CreateAttr msg "xmlns" "http://www.idealdesk.com/ideal/messages/mer-acq/3.3.1";;
  Build.CreateAttr msg "version" "3.3.1";;
  mret msg.

(** The error envelope both [request] methods read. *)
Definition read_AcquirerError (doc : Element) : result AcquirerError :=
  errorCode ← deref (FindElement doc "/AcquirerErrorRes/Error/errorCode");
  errorMessage ← deref (FindElement doc "/AcquirerErrorRes/Error/errorMessage");
  errorDetail ← deref (FindElement doc "/AcquirerErrorRes/Error/errorDetail");
  consumerMessage ← deref (FindElement doc "/AcquirerErrorRes/Error/consumerMessage");
  Ok (mkAcquirerError (Text errorCode) (Text errorMessage) (Text errorDetail) (Text consumerMessage)).

(** [IDealClient.request] (ideal.go:39).  [CommonClient.request] returns a
    document or an error, never both: [doc != nil] is its success. *)
Definition IDealClient_request (c : IDealClient) (msg : string) : M Element :=
  doc ← CommonClient_request c msg;
  root ← lift (index (ChildElements doc) 0);
  if String.eqb (Tag root) "AcquirerErrorRes"
  then e ← lift (read_AcquirerError doc); lift (Fail (ErrAcquirer e))
  else mret doc.

(** [IDealClient.DirectoryRequest] (ideal.go:57). *)
Definition IDealClient_DirectoryRequest (c : IDealClient) : M Directory :=
  msg ← lift (Build.run (IDealClient_createMessage c "DirectoryReq"));
  signed ← lift (CommonClient_signMessage c msg);
  doc ← IDealClient_request c signed;
  response ← CommonClient_validateMessage c doc;
  lift (CommonClient_parseDirectoryRequest c response).

(** ideal.go:76-85: the status request is built, signed and sent, and the
    answer validated. *)
Definition IDealClient_statusResponse (c : IDealClient) (trxid : string) : M Element :=
  msg ← lift (Build.run (
    msg ← IDealClient_createMessage c "AcquirerStatusReq";
    transaction ← Build.CreateElement msg "Transaction";
    transactionID ← Build.CreateElement transaction "transactionID";
    Build.SetText transactionID trxid;;
    mret msg));
  signed ← lift (CommonClient_signMessage c msg);
  doc ← IDealClient_request c signed;
  CommonClient_validateMessage c doc.

(** The [switch] of ideal.go:94. *)
Definition IDeal_status (statusString : string) : TransactionStatus :=
  if String.eqb statusString "Success" then Success
  else if String.eqb statusString "Cancelled" then Cancelled
  else if String.eqb statusString "Expired" then Expired
  else if String.eqb statusString "Failure" then Failure
  else if String.eqb statusString "Open" then Open
  else InvalidStatus.

(** [IDealClient.TransactionStatus] (ideal.go:75). *)
Definition IDealClient_TransactionStatus (c : IDealClient) (trxid : string) : M IDealTransactionStatus :=
  response ← IDealClient_statusResponse c trxid;
  lift (
    idEl ← deref (FindElement response "/Transaction/transactionID");
    let transactionID := Text idEl in
    if negb (String.eqb transactionID trxid)
    then Fail (ErrorString "idx: returned transaction ID does not match")
    else
      statusEl ← deref (FindElement response "/Transaction/status");
      let statusString := Text statusEl in
      let status := IDeal_status statusString in
      if decide (status = InvalidStatus) then
        (* Invalid status (not one of the statuses specified in the MIR). *)
        Fail (ErrorString ("ideal: invalid status: " +:+ statusString))
      else if decide (status = Success) then
        (* Valid response, transaction was successful. *)
        consumerName ← deref (FindElement response "/Transaction/consumerName");
        consumerIBAN ← deref (FindElement response "/Transaction/consumerIBAN");
        consumerBIC ← deref (FindElement response "/Transaction/consumerBIC");
        amount ← deref (FindElement response "/Transaction/amount");
        currency ← deref (FindElement response "/Transaction/currency");
        Ok (mkIDealTransactionStatus status (Text consumerName) (Text consumerIBAN)
              (Text consumerBIC) (Text amount) (Text currency))
      else
        (* Valid response, but status was not "Success". *)
        Ok (mkIDealTransactionStatus status EmptyString EmptyString EmptyString
              EmptyString EmptyString)).

(** [IDealClient.NewTransaction] (ideal.go:138). *)
Definition IDealClient_NewTransaction (c : IDealClient)
    (issuer purchaseID amount description entranceCode : string) : result IDealTransaction :=
  msg ← Build.run (
    msg ← IDealClient_createMessage c "AcquirerTrxReq";
    merchantEl ← Build.FindElement msg "/Merchant";
    returnURL ← Build.CreateElement merchantEl "merchantReturnURL";
    Build.SetText returnURL (ReturnURL c);;
    issuerEl ← Build.CreateElement msg "Issuer";
    issuerID ← Build.CreateElement issuerEl "issuerID";
    Build.SetText issuerID issuer;;
    Build.InsertChild msg merchantEl issuerEl;; (* order matters: Issuer must occur before Merchant *)
    transaction ← Build.CreateElement msg "Transaction";
    e ← Build.CreateElement transaction "purchaseID";
    Build.SetText e purchaseID;;
    e ← Build.CreateElement transaction "amount";
    Build.SetText e amount;;
    e ← Build.CreateElement transaction "currency";
    Build.SetText e "EUR";;
    e ← Build.CreateElement transaction "language";
    Build.SetText e "nl";;
    e ← Build.CreateElement transaction "description";
    Build.SetText e description;;
    e ← Build.CreateElement transaction "entranceCode";
    Build.SetText e entranceCode;;
    mret msg);
  Ok (mkIDealTransaction c msg EmptyString EmptyString).

(** [IDealTransaction.Start] (ideal.go:162): the transaction with its two
    fields assigned. *)
Definition IDealTransaction_Start (t : IDealTransaction) : M IDealTransaction :=
  (* create a signed message and do a request *)
  signed ← lift (CommonClient_signMessage (IDeal_client t) (IDeal_msg t));
  doc ← IDealClient_request (IDeal_client t) signed;
  (* validate the response message *)
  response ← CommonClient_validateMessage (IDeal_client t) doc;
  (* extract the transaction ID and the URL to redirect to *)
  lift (
    urlEl ← deref (FindElement response "/Issuer/issuerAuthenticationURL");
    let t := mkIDealTransaction (IDeal_client t) (IDeal_msg t) (Text urlEl) (IDeal_transactionID t) in
    idEl ← deref (FindElement response "/Transaction/transactionID");
    Ok (mkIDealTransaction (IDeal_client t) (IDeal_msg t) (IDeal_issuerAuthenticationURL t) (Text idEl))).

(** *** iDIN (idin.go) *)

(** [IDINClient.createMessage] (idin.go:99). *)
Definition IDINClient_createMessage (c : IDINClient) (tag : string) : Build.B Build.ptr :=
  msg ← CommonClient_createMessage c tag;
  Build.CreateAttr msg "xmlns" "http://www.betaalvereniging.nl/iDx/messages/Merchant-Acquirer/1.0.0";;
  Build.CreateAttr msg "version" "1.0.0";;
  Build.CreateAttr msg "productID" "NL:BVN:BankID:1.0";;
  mret msg.

(** [IDINClient.request] (idin.go:107). *)
Definition IDINClient_request (c : IDINClient) (msg : string) : M Element :=
  doc ← CommonClient_request c msg;
  root ← lift (index (ChildElements doc) 0);
  if String.eqb (Tag root) "AcquirerErrorRes"
  then e ← lift (read_AcquirerError doc); lift (Fail (ErrAcquirer e))
  else mret doc.

(** [IDINClient.DirectoryRequest] (idin.go:125). *)
Definition IDINClient_DirectoryRequest (c : IDINClient) : M Directory :=
  msg ← lift (Build.run (IDINClient_createMessage c "DirectoryReq"));
  signed ← lift (CommonClient_signMessage c msg);
  doc ← IDINClient_request c signed;
  response ← CommonClient_validateMessage c doc;
  lift (CommonClient_parseDirectoryRequest c response).

(** idin.go:147-162: the status request is built, signed and sent, and the
    answer validated. *)
Definition IDINClient_statusResponse (c : IDINClient) (trxid : string) : M Element :=
  msg ← lift (Build.run (
    msg ← IDINClient_createMessage c "AcquirerStatusReq";
    transaction ← Build.CreateElement msg "Transaction";
    transactionID ← Build.CreateElement transaction "transactionID";
    Build.SetText transactionID trxid;;
    mret msg));
  signed ← lift (CommonClient_signMessage c msg);
  doc ← IDINClient_request c signed;
  CommonClient_validateMessage c doc.

(** The [switch] of idin.go:173; [None] is its [default]. *)
Definition IDIN_status (statusString : string) : option TransactionStatus :=
  if String.eqb statusString "urn:oasis:names:tc:SAML:2.0:status:Success" then Some Success
  else if String.eqb statusString "urn:oasis:names:tc:SAML:2.0:status:Cancelled" then Some Cancelled
  else if String.eqb statusString "urn:oasis:names:tc:SAML:2.0:status:Expired" then Some Expired
  else if String.eqb statusString "urn:oasis:names:tc:SAML:2.0:status:Failure" then Some Failure
  else if String.eqb statusString "urn:oasis:names:tc:SAML:2.0:status:Open" then Some Open
  else None.

(** The type assertion of [c.Certificate.PrivateKey] to an RSA private key. *)
Definition rsa_PrivateKey (c : CommonClient) : result (list byte) :=
  match Certificate_PrivateKey (Certificate c) with
  | RSAPrivateKey key => Ok key
  | OtherPrivateKey => Panic TypeAssertion
  end.

(** The body of the loop of idin.go:193. *)
Definition IDIN_decryptAttribute (c : IDINClient) (el : Element)
    (attributes : gmap string string) : M (gmap string string) :=
  key ← lift (rsa_PrivateKey c);
  emit (EvDecrypt el);;
  el ← lift (xmlenc_DecryptElement el key);
  attribute ← lift (deref (FindElement el "Attribute"));
  let key := SelectAttrValue attribute "Name" EmptyString in
  attributeValue ← lift (deref (FindElement el "Attribute/AttributeValue"));
  let value := Text attributeValue in
  mret (<[key := value]> attributes).

(** [IDINClient.TransactionStatus] (idin.go:146).  [root] is the tree
    [validateMessage] returned; it has no parent, so the paths with a leading
    slash are resolved from [root] itself. *)
Definition IDINClient_TransactionStatus (c : IDINClient) (trxid : string) : M IDINTransactionStatus :=
  root ← IDINClient_statusResponse c trxid;
  idEl ← lift (deref (FindElement root "/AcquirerStatusRes/Transaction/transactionID"));
  let transactionID := Text idEl in
  if negb (String.eqb transactionID trxid)
  then lift (Fail (ErrorString "idx: returned transaction ID does not match"))
  else
    statusCodeEl ← lift (deref (FindElement root
      "/AcquirerStatusRes/Transaction/container/Response/Status/StatusCode"));
    let statusString := SelectAttrValue statusCodeEl "Value" EmptyString in
    match IDIN_status statusString with
    | None => lift (Fail (ErrorString ("idin: invalid status: " +:+ statusString)))
    | Some status =>
        if decide (status = Success) then
          attributes ← forEachM
            (FindElements root
               "/AcquirerStatusRes/Transaction/container/Response/Assertion/AttributeStatement/EncryptedAttribute/EncryptedData")
            (IDIN_decryptAttribute c) ∅;
          mret (mkIDINTransactionStatus status (Some attributes))
        else mret (mkIDINTransactionStatus status None)
    end.

(** [IDINClient.NewTransaction] (idin.go:212). *)
Definition IDINClient_NewTransaction (c : IDINClient)
    (issuer entranceCode id : string) (attributes : Z) : result IDINTransaction :=
  msg ← Build.run (
    msg ← IDINClient_createMessage c "AcquirerTrxReq";
    merchantEl ← Build.FindElement msg "/Merchant";
    returnURL ← Build.CreateElement merchantEl "merchantReturnURL";
    Build.SetText returnURL (ReturnURL c);;
    issuerEl ← Build.CreateElement msg "Issuer";
    issuerID ← Build.CreateElement issuerEl "issuerID";
    Build.SetText issuerID issuer;;
    Build.InsertChild msg merchantEl issuerEl;; (* order matters: Issuer must occur before Merchant *)
    transaction ← Build.CreateElement msg "Transaction";
    e ← Build.CreateElement transaction "language";
    Build.SetText e "nl";;
    e ← Build.CreateElement transaction "entranceCode";
    Build.SetText e entranceCode;;
    container ← Build.CreateElement transaction "container";
    samlAuthRequest ← Build.CreateElement container "samlp:AuthnRequest";
    Build.CreateAttr samlAuthRequest "xmlns:samlp" "urn:oasis:names:tc:SAML:2.0:protocol";;
    Build.CreateAttr samlAuthRequest "xmlns:saml" "urn:oasis:names:tc:SAML:2.0:assertion";;
    Build.CreateAttr samlAuthRequest "ID" id;;
    Build.CreateAttr samlAuthRequest "Version" "2.0";;
    ts ← Build.FindElement msg "/createDateTimestamp";
    issueInstant ← Build.Text ts;
    Build.CreateAttr samlAuthRequest "IssueInstant" issueInstant;;
    Build.CreateAttr samlAuthRequest "ProtocolBinding" "nl:bvn:bankid:1.0:protocol:iDx";;
    Build.CreateAttr samlAuthRequest "AssertionConsumerServiceURL" (ReturnURL c);;
    Build.CreateAttr samlAuthRequest "AttributeConsumingServiceIndex" (Strings.Itoa attributes);;
    e ← Build.CreateElement samlAuthRequest "saml:Issuer";
    Build.SetText e (MerchantID c);;
    context ← Build.CreateElement samlAuthRequest "samlp:RequestedAuthnContext";
    Build.CreateAttr context "Comparison" "minimum";;
    e ← Build.CreateElement context "saml:AuthnContextClassRef";
    Build.SetText e "nl:bvn:bankid:1.0:loa3";;
    mret msg);
  Ok (mkIDINTransaction c msg EmptyString EmptyString).

(** [IDINTransaction.Start] (idin.go:244). *)
Definition IDINTransaction_Start (t : IDINTransaction) : M IDINTransaction :=
  signed ← lift (CommonClient_signMessage (IDIN_client t) (IDIN_msg t));
  doc ← IDINClient_request (IDIN_client t) signed;
  response ← CommonClient_validateMessage (IDIN_client t) doc;
  lift (
    urlEl ← deref (FindElement response "/Issuer/issuerAuthenticationURL");
    let t := mkIDINTransaction (IDIN_client t) (IDIN_msg t) (Text urlEl) (IDIN_transactionID t) in
    idEl ← deref (FindElement response "/Transaction/transactionID");
    Ok (mkIDINTransaction (IDIN_client t) (IDIN_msg t) (IDIN_issuerAuthenticationURL t) (Text idEl))).

End Engine.

(** ** Notions the properties are stated with *)

(** Among the children of [msg] there is one Issuer element and one Merchant
    element, and the Issuer comes first: in document order the Issuer block
    ends before the Merchant block starts. *)
Definition Issuer_before_Merchant (msg : Element) : Prop :=
  ∃ l1 issuerEl l2 merchantEl l3,
    Child msg = l1 ++ TElement issuerEl :: l2 ++ TElement merchantEl :: l3 ∧
    (Space issuerEl, Tag issuerEl) = (EmptyString, "Issuer") ∧
    (Space merchantEl, Tag merchantEl) = (EmptyString, "Merchant") ∧
    Forall (fun t => ∀ e, t = TElement e → Tag e ≠ "Issuer" ∧ Tag e ≠ "Merchant")
      (l1 ++ l2 ++ l3).

(** No signature validation was asked for an element tagged as the error
    envelope. *)
Definition no_envelope_validated (tr : list Event) : Prop :=
  ∀ el, EvValidate el ∈ tr → Tag el ≠ "AcquirerErrorRes".

(** A call keeps an invariant of the record of events, and its value, when it
    returns one, satisfies [Q]. *)
Definition hoare {A} (I : list Event → Prop) (m : M A) (Q : A → Prop) : Prop :=
  ∀ tr, I tr → I (m tr).2 ∧ ∀ a, (m tr).1 = Ok a → Q a.

(** The digits of upper-case hexadecimal text. *)
Definition upper_hex (a : ascii) : bool :=
  let n := N_of_ascii a in
  ((48 <=? n)%N && (n <=? 57)%N) || ((65 <=? n)%N && (n <=? 70)%N).

Fixpoint all_chars (P : ascii → bool) (s : string) : bool :=
  match s with
  | EmptyString => true
  | String a rest => P a && all_chars P rest
  end.

(** The status texts of the payment variant. *)
Definition IDeal_statuses : list string :=
  ["Success"; "Cancelled"; "Expired"; "Failure"; "Open"].

(** ** Sample documents and collaborators *)

Module Sample.

Definition el (tag : string) (children : list Token) : Element :=
  mkElement EmptyString tag [] children.

Definition leaf (tag text : string) : Token := TElement (el tag [TCharData text]).

Definition document (root : Element) : Element := SetRoot NewDocument root.

Definition issuer (id name : string) : Token :=
  TElement (el "Issuer" [leaf "issuerID" id; leaf "issuerName" name]).

(** The directory answer of two countries. *)
Definition DirectoryRes : Element :=
  el "DirectoryRes"
    [leaf "createDateTimestamp" "2026-10-30T12:00:00Z";
     TElement (el "Directory"
       [TElement (el "Country"
          [leaf "countryNames" "Netherlands";
           issuer "INGBNL2A" "ING";
           issuer "RABONL2U" "Rabobank"]);
        TElement (el "Country"
          [leaf "countryNames" "Belgium";
           issuer "GEBABEBB" "BNP"])])].

(** What the directory of that answer is, country by country. *)
Definition Directory_expected : Directory :=
  mkDirectory (<["Netherlands" := [mkIssuer "INGBNL2A" "ING"; mkIssuer "RABONL2U" "Rabobank"]]>
              (<["Belgium" := [mkIssuer "GEBABEBB" "BNP"]]> ∅)).

Definition AcquirerErrorRes : Element :=
  el "AcquirerErrorRes"
    [leaf "createDateTimestamp" "2026-10-30T12:00:00Z";
     TElement (el "Error"
       [leaf "errorCode" "SO1000";
        leaf "errorMessage" "System error";
        leaf "errorDetail" "...";
        leaf "consumerMessage" "Something went wrong"])].

(** A payment-variant status answer. *)
Definition IDeal_StatusRes (trxid status : string) : Element :=
  el "AcquirerStatusRes"
    [leaf "createDateTimestamp" "2026-10-30T12:00:00Z";
     TElement (el "Transaction"
       [leaf "transactionID" trxid;
        leaf "status" status;
        leaf "consumerName" "J. Jansen";
        leaf "consumerIBAN" "NL44RABO0123456789";
        leaf "consumerBIC" "RABONL2U";
        leaf "amount" "1.00";
        leaf "currency" "EUR"])].

Definition EncryptedAttribute (cipher : string) : Token :=
  TElement (el "EncryptedAttribute" [TElement (el "EncryptedData" [TCharData cipher])]).

(** An identity-variant status answer: the AcquirerStatusRes element the
    bank sends as the root of its document.  [validateMessage] hands this
    element to the validation and gets it back as a tree of its own, so it
    is the top of what [IDINClient.TransactionStatus] searches. *)
Definition IDIN_StatusRes (trxid statusValue : string) (attributes : list Token) : Element :=
  el "AcquirerStatusRes"
    [leaf "createDateTimestamp" "2026-10-30T12:00:00Z";
     TElement (el "Acquirer" [leaf "acquirerID" "0001"]);
     TElement (el "Transaction"
       [leaf "transactionID" trxid;
        TElement (el "container"
          [TElement (el "Response"
             [TElement (el "Status"
                [TElement (mkElement EmptyString "StatusCode"
                   [mkAttr EmptyString "Value" statusValue] [])]);
              TElement (el "Assertion"
                [TElement (el "AttributeStatement" attributes)])])])])].

Definition Attribute (name value : string) : Element :=
  el "Decrypted"
    [TElement (mkElement EmptyString "Attribute" [mkAttr EmptyString "Name" name]
       [leaf "AttributeValue" value])].

(** Decryption that succeeds on the cipher text ["good"] only. *)
Definition decrypt (e : Element) (key : list byte) : result Element :=
  if String.eqb (Text e) "good"
  then Ok (Attribute "urn:nl:bvn:bankid:1.0:consumer.initials" "J")
  else Fail (ErrExternal FromDecryptor "xmlenc: decryption failed").

Definition Signature : Token :=
  TElement (el "Signature"
    [TElement (el "SignedInfo" []);
     TElement (el "SignatureValue" [TCharData "c2lnbmF0dXJl"]);
     TElement (el "KeyInfo" [TElement (el "X509Data" [leaf "X509Certificate" "MIIB"])])]).

(** Collaborators under which the bank answers every request with the
    document [answer], and validation accepts it as it is. *)
Definition collaborators (answer : Element) : Collaborators := {|
  now := "2026-10-30T12:00:00Z";
  http_NewRequest := fun _ _ _ => None;
  http_Do := fun _ _ _ => Ok (mkResponse 200 "200 OK" "<answer/>");
  etree_ReadFrom := fun _ => Ok answer;
  etree_WriteToString := fun _ => Ok "<signed/>";
  dsig_SignEnveloped := fun _ msg => Ok (with_children msg (Child msg ++ [Signature]));
  dsig_Validate := fun _ e => Ok e;
  xmlenc_DecryptElement := decrypt;
  sha1_Sum := fun data => repeat Byte.xab 20
|}.

Definition client : CommonClient :=
  mkCommonClient "https://bank.example/ideal" "002020000" "0" "https://shop.example/return"
    (mkCertificate [[Byte.x30; Byte.x82]] (RSAPrivateKey [Byte.x01])) [Byte.x30].

(** What these collaborators record during one exchange. *)
Definition trace (validated : Element) : list Event :=
  [EvPost "https://bank.example/ideal" (xml_Header +:+ "<signed/>"); EvValidate validated].

Definition Success_URI : string := "urn:oasis:names:tc:SAML:2.0:status:Success".

Definition encrypted (cipher : string) : Element := el "EncryptedData" [TCharData cipher].

End Sample.

(** ** Notions for the properties of the remaining code *)

(** The events a call appends hold at most [p] posts and [v] validations. *)
Definition is_post (ev : Event) : bool :=
  match ev with EvPost _ _ => true | _ => false end.

Definition is_validate (ev : Event) : bool :=
  match ev with EvValidate _ => true | _ => false end.

Definition appends_at_most {A} (p v : nat) (m : M A) : Prop :=
  ∀ tr, ∃ evs, (m tr).2 = tr ++ evs
    ∧ (List.length (List.filter is_post evs) ≤ p)%nat
    ∧ (List.length (List.filter is_validate evs) ≤ v)%nat.

(** The attribute flags of idin.go:70-78. *)
Definition IDIN_flags : list Z :=
  [IDINServiceIDBIN; IDINServiceIDName; IDINServiceIDAddress; IDINServiceIDDateOfBirth;
   IDINServiceIDGender; IDINServiceIDTelephone; IDINServiceIDEmail].

(** The prefix the five status URIs of idin.go:173 share. *)
Definition IDIN_status_prefix : string := "urn:oasis:names:tc:SAML:2.0:status:".

(** The value of an upper-case hexadecimal digit. *)
Definition hex_value (a : ascii) : N :=
  let n := N_of_ascii a in
  if (n <=? 57)%N then (n - 48)%N else (n - 55)%N.

(** [n] times [directory.Issuers[k] = append(directory.Issuers[k], x)]. *)
Fixpoint Issuers_append_times (n : nat) (d : Directory) (k : string) (x : Issuer) : Directory :=
  match n with
  | O => d
  | S n' => Issuers_append_times n' (Issuers_append d k x) k x
  end.

(** Further sample answers. *)
Module Sample2.

(** The answer to a transaction request. *)
Definition AcquirerTrxRes : Element :=
  Sample.el "AcquirerTrxRes"
    [Sample.leaf "createDateTimestamp" "2026-10-30T12:00:00Z";
     TElement (Sample.el "Issuer"
       [Sample.leaf "issuerAuthenticationURL" "https://bank.example/auth?trx=0050000012345678"]);
     TElement (Sample.el "Transaction"
       [Sample.leaf "transactionID" "0050000012345678"])].

(** A directory of one country with one issuer. *)
Definition DirectoryRes_one : Element :=
  Sample.el "DirectoryRes"
    [TElement (Sample.el "Directory"
       [TElement (Sample.el "Country"
          [Sample.leaf "countryNames" "Nederland"; Sample.issuer "INGBNL2A" "ING"])])].

Definition transaction : IDealTransaction :=
  mkIDealTransaction (mkIDealClient Sample.client) (Sample.el "AcquirerTrxReq" [])
    EmptyString EmptyString.

(** Collaborators like [Sample.collaborators] whose transport answers with
    the status [code]. *)
Definition collaborators_status (code : Z) (status : string) : Collaborators := {|
  now := "2026-10-30T12:00:00Z";
  http_NewRequest := fun _ _ _ => None;
  http_Do := fun _ _ _ => Ok (mkResponse code status "<html/>");
  etree_ReadFrom := fun _ => Ok (Sample.document Sample.DirectoryRes);
  etree_WriteToString := fun _ => Ok "<signed/>";
  dsig_SignEnveloped := fun _ msg => Ok (with_children msg (Child msg ++ [Sample.Signature]));
  dsig_Validate := fun _ e => Ok e;
  xmlenc_DecryptElement := Sample.decrypt;
  sha1_Sum := fun data => repeat Byte.xab 20
|}.

(** Collaborators whose signing library fails. *)
Definition collaborators_unsigned : Collaborators := {|
  now := "2026-10-30T12:00:00Z";
  http_NewRequest := fun _ _ _ => None;
  http_Do := fun _ _ _ => Ok (mkResponse 200 "200 OK" "<answer/>");
  etree_ReadFrom := fun _ => Ok (Sample.document Sample.DirectoryRes);
  etree_WriteToString := fun _ => Ok "<signed/>";
  dsig_SignEnveloped := fun _ _ => Fail (ErrExternal FromSigner "dsig: no key");
  dsig_Validate := fun _ e => Ok e;
  xmlenc_DecryptElement := Sample.decrypt;
  sha1_Sum := fun data => repeat Byte.xab 20
|}.

(** Collaborators like [Sample.collaborators] whose signing library returns
    the same signed tree for every message. *)
Definition collaborators_fixed (answer : Element) : Collaborators := {|
  now := "2026-10-30T12:00:00Z";
  http_NewRequest := fun _ _ _ => None;
  http_Do := fun _ _ _ => Ok (mkResponse 200 "200 OK" "<answer/>");
  etree_ReadFrom := fun _ => Ok answer;
  etree_WriteToString := fun _ => Ok "<signed/>";
  dsig_SignEnveloped := fun _ _ => Ok (Sample.el "DirectoryReq" [Sample.Signature]);
  dsig_Validate := fun _ e => Ok e;
  xmlenc_DecryptElement := Sample.decrypt;
  sha1_Sum := fun data => repeat Byte.xab 20
|}.

End Sample2.

(** ** Facts about paths, positions and edits *)

Section EtreeFacts.

Lemma traverse_app segs l1 l2 :
  traverse segs (l1 ++ l2) = traverse segs l1 ++ traverse segs l2.
Proof.
  revert l1 l2. induction segs as [|seg rest IH]; intros l1 l2; [done|].
  cbn. rewrite bind_app. apply IH.
Qed.

Lemma traverse_cons segs x l :
  traverse segs (x :: l) = traverse segs [x] ++ traverse segs l.
Proof. apply (traverse_app segs [x] l). Qed.

Lemma traverse_nil segs : traverse segs [] = [].
Proof. induction segs; done. Qed.

(** The positions found are the positions of the elements found. *)
Lemma findPos_children_subtree rest seg e :
  (∀ x, subtree x <$> findPos rest x = Some <$> traverse rest [x]) →
  ∀ cs pre, Child e = pre ++ cs →
    subtree e <$> findPos_children (findPos rest) seg (List.length pre) cs
    = Some <$> traverse rest (List.filter (tagMatch seg) (omap token_element cs)).
Proof.
  intros IH cs. induction cs as [|t cs IHcs]; intros pre Hpre.
  - cbn. by rewrite traverse_nil.
  - assert (Hnext : Child e = (pre ++ [t]) ++ cs) by by rewrite <- app_assoc.
    specialize (IHcs _ Hnext). rewrite length_app in IHcs. cbn in IHcs.
    rewrite Nat.add_1_r in IHcs.
    destruct t as [x| | | |]; cbn; try exact IHcs.
    destruct (tagMatch seg x) eqn:Hm; [|exact IHcs].
    rewrite fmap_app, traverse_cons, fmap_app. f_equal; [|exact IHcs].
    rewrite <- list_fmap_compose, <- IH.
    apply list_fmap_ext. intros i p _. cbn.
    rewrite Hpre, lookup_app_r by lia. by rewrite Nat.sub_diag.
Qed.

Lemma findPos_subtree segs e :
  subtree e <$> findPos segs e = Some <$> traverse segs [e].
Proof.
  revert e. induction segs as [|seg rest IH]; intros e; [done|].
  cbn [findPos traverse].
  pose proof (findPos_children_subtree rest seg e IH (Child e) [] eq_refl) as H.
  cbn [List.length] in H. rewrite H. cbn. by rewrite app_nil_r.
Qed.

Lemma findPos_length segs e p :
  p ∈ findPos segs e → List.length p = List.length segs.
Proof.
  revert e p. induction segs as [|seg rest IH]; intros e p.
  - cbn. by intros ->%list_elem_of_singleton.
  - cbn [findPos]. generalize 0. induction (Child e) as [|t cs IHcs]; intros k; cbn.
    + by intros ?%elem_of_nil.
    + destruct t as [x| | | |]; try apply IHcs.
      intros [Hp|Hp]%elem_of_app; [|by eapply IHcs].
      destruct (tagMatch seg x); [|by apply elem_of_nil in Hp].
      apply list_elem_of_fmap in Hp as (q & -> & Hq). cbn. f_equal. by eapply IH.
Qed.

(** The pointer [FindElementPos] returns points at the element [FindElement]
    returns. *)
Lemma FindElementPos_FindElement e path p :
  FindElementPos e path = Some p → FindElement e path = subtree e p ∧ is_Some (subtree e p).
Proof.
  unfold FindElementPos, FindElement, FindElementIn, FindElementsIn.
  destruct (compilePath path) as [q|]; [|done].
  intros Hp. pose proof (findPos_subtree (segments q) e) as Hs.
  assert (traverse (segments q) [if absolute q then e else e] = traverse (segments q) [e])
    as -> by by destruct (absolute q).
  destruct (findPos (segments q) e) as [|p' ps]; [done|]. injection Hp as ->.
  destruct (traverse (segments q) [e]) as [|x xs]; [done|].
  cbn in Hs. injection Hs as -> _. eauto.
Qed.

Section Update.
Variable f : Element → Element.
Hypothesis f_Space : ∀ e, Space (f e) = Space e.
Hypothesis f_Tag : ∀ e, Tag (f e) = Tag e.

Lemma update_Space e p : Space (update f e p) = Space e.
Proof. destruct p as [|i p]; cbn; [done|]. by destruct (Child e !! i) as [[]|]. Qed.

Lemma update_Tag e p : Tag (update f e p) = Tag e.
Proof. destruct p as [|i p]; cbn; [done|]. by destruct (Child e !! i) as [[]|]. Qed.

Lemma subtree_update p e x :
  subtree e p = Some x → subtree (update f e p) p = Some (f x).
Proof.
  revert e x. induction p as [|i p IH]; intros e x; cbn.
  - by intros [= ->].
  - destruct (Child e !! i) as [[c| | | |]|] eqn:Hi; try done.
    intros Hx. cbn. rewrite list_lookup_insert_eq by by eapply lookup_lt_Some.
    by apply IH.
Qed.

Lemma findPos_children_insert (go : Element → list pos) seg c c' :
  Space c' = Space c → Tag c' = Tag c → go c' = go c →
  ∀ cs i k, cs !! i = Some (TElement c) →
    findPos_children go seg k (<[i := TElement c']> cs) = findPos_children go seg k cs.
Proof.
  intros HS HT Hgo cs. induction cs as [|t cs IH]; intros i k Hi; [done|].
  destruct i as [|i]; cbn in *.
  - injection Hi as ->. unfold tagMatch. by rewrite HS, HT, Hgo.
  - destruct t; cbn; rewrite ?(IH _ _ Hi); done.
Qed.

(** An edit that keeps the name of the element at [p] does not move what a
    path of at most that depth finds. *)
Lemma findPos_update segs e p :
  (List.length segs ≤ List.length p)%nat → findPos segs (update f e p) = findPos segs e.
Proof.
  revert e p. induction segs as [|seg rest IH]; intros e p Hlen; [done|].
  destruct p as [|i p]; cbn in Hlen; [lia|].
  cbn [update]. destruct (Child e !! i) as [[c| | | |]|] eqn:Hi; try done.
  cbn [findPos]. cbn [Child with_children].
  apply (findPos_children_insert _ _ c); [apply update_Space|apply update_Tag| |done].
  apply IH. lia.
Qed.

End Update.

(** Two edits at one position are one edit, and an edit at [p] replaces the
    element found at [p]. *)
Lemma update_update (f g : Element → Element) e p :
  update g (update f e p) p = update (λ x, g (f x)) e p.
Proof.
  revert e. induction p as [|i p IH]; intros e; [done|].
  cbn [update]. destruct (Child e !! i) as [[c| | | |]|] eqn:Hi; cbn [update]; rewrite ?Hi; try done.
  cbn [Child with_children].
  rewrite list_lookup_insert_eq by by eapply lookup_lt_Some.
  by rewrite list_insert_insert_eq, IH.
Qed.

Lemma update_at (f : Element → Element) e p k :
  subtree e p = Some k → update f e p = update (λ _, f k) e p.
Proof.
  revert e. induction p as [|i p IH]; intros e; cbn [subtree update].
  - by intros [= ->].
  - destruct (Child e !! i) as [[c| | | |]|]; try done.
    intros Hk. by rewrite (IH _ Hk).
Qed.

Lemma RemoveChildElements_ChildElements e : ChildElements (RemoveChildElements e) = [].
Proof.
  unfold RemoveChildElements, ChildElements. cbn.
  induction (Child e) as [|t cs IH]; [done|].
  destruct t; cbn; done.
Qed.

Lemma CreateTextElement_ChildElements e tag text :
  ChildElements (CreateTextElement e tag text)
  = ChildElements e ++ [mkElement (spaceDecompose tag).1 (spaceDecompose tag).2 [] [TCharData text]].
Proof.
  unfold CreateTextElement, ChildElements. destruct (spaceDecompose tag) as [space stag].
  cbn. by rewrite omap_app.
Qed.

End EtreeFacts.

(** ** Facts about hexadecimal text *)

Lemma upper_digit_hex (n : N) : (n < 16)%N → upper_hex (Strings.upper (Hex.digit n)) = true.
Proof.
  intros Hn.
  assert (Hcases : n ∈ (N.of_nat <$> seq 0 16)).
  { apply list_elem_of_fmap. exists (N.to_nat n). split; [lia|]. apply elem_of_seq. lia. }
  cbn in Hcases. set_unfold in Hcases.
  repeat (destruct Hcases as [->|Hcases]; [by vm_compute|]). done.
Qed.

Lemma EncodeToString_upper_hex (src : list byte) :
  all_chars upper_hex (Strings.ToUpper (Hex.EncodeToString src)) = true
  ∧ String.length (Strings.ToUpper (Hex.EncodeToString src)) = 2 * List.length src.
Proof.
  induction src as [|b src [IH1 IH2]]; [done|].
  cbn [Hex.EncodeToString Strings.ToUpper all_chars String.length List.length].
  split; [|lia].
  rewrite IH1, !upper_digit_hex; [done| |].
  - change 15%N with (N.ones 4). rewrite N.land_ones. by apply N.mod_lt.
  - destruct b; by vm_compute.
Qed.

(** ** The signer *)

Lemma FindElementPos_is_Some e path :
  is_Some (FindElement e path) → is_Some (FindElementPos e path).
Proof.
  unfold FindElementPos, FindElement, FindElementIn, FindElementsIn.
  destruct (compilePath path) as [q|]; [|by intros [? [=]]].
  assert (traverse (segments q) [if absolute q then e else e] = traverse (segments q) [e])
    as -> by by destruct (absolute q).
  pose proof (findPos_subtree (segments q) e) as Hs.
  destruct (traverse (segments q) [e]); [by intros [? [=]]|].
  destruct (findPos (segments q) e); [done|]. eauto.
Qed.

Lemma FindElementPos_length e path p q :
  compilePath path = Some q → FindElementPos e path = Some p →
  List.length p = List.length (segments q).
Proof.
  unfold FindElementPos. intros -> Hp. apply (findPos_length _ e).
  destruct (findPos (segments q) e) as [|p' ps]; [done|].
  injection Hp as ->. apply list_elem_of_here.
Qed.

Lemma FindElementPos_update f e path p q :
  (∀ x, Space (f x) = Space x) → (∀ x, Tag (f x) = Tag x) →
  compilePath path = Some q → (List.length (segments q) ≤ List.length p)%nat →
  FindElementPos (update f e p) path = FindElementPos e path.
Proof.
  unfold FindElementPos. intros HS HT -> Hlen. by rewrite findPos_update.
Qed.

Lemma compilePath_KeyInfo :
  compilePath "/Signature/KeyInfo"
  = Some (mkPath true [(EmptyString, "Signature"); (EmptyString, "KeyInfo")]).
Proof. reflexivity. Qed.

(** C8. [signMessage] returns the XML declaration header followed by the
    serialisation of a document whose only root is the tree the signing
    library returned for [msg], edited at one place: the element at
    /Signature/KeyInfo keeps its name, its attributes and its tokens that are
    not elements, and has exactly one child element, KeyName, whose text is
    the upper-case hexadecimal form of the SHA-1 digest of the leaf
    certificate (two digits 0-9A-F per digest byte).  Whatever child elements
    KeyInfo had are gone; the rest of the signed tree is as it was. *)
Theorem signMessage_KeyName `{Collaborators} (c : CommonClient) (msg signed : Element)
    (leaf : list byte) (chain : list (list byte)) :
  dsig_SignEnveloped (Certificate c) msg = Ok signed →
  Certificate_chain (Certificate c) = leaf :: chain →
  is_Some (FindElement signed "/Signature/KeyInfo") →
  (∀ doc, ∃ str, etree_WriteToString doc = Ok str) →
  let keyNameString := Strings.ToUpper (Hex.EncodeToString (sha1_Sum leaf)) in
  let KeyName := mkElement EmptyString "KeyName" [] [TCharData keyNameString] in
  ∃ p keyInfo str,
    FindElementPos signed "/Signature/KeyInfo" = Some p ∧
    FindElement signed "/Signature/KeyInfo" = Some keyInfo ∧
    subtree signed p = Some keyInfo ∧
    let keyInfo' :=
      mkElement (Space keyInfo) (Tag keyInfo) (Attrs keyInfo)
        (List.filter (λ t, negb (bool_decide (is_Some (token_element t)))) (Child keyInfo)
         ++ [TElement KeyName]) in
    let signed' := update (λ _, keyInfo') signed p in
    CommonClient_signMessage c msg = Ok (xml_Header +:+ str) ∧
    etree_WriteToString (mkElement EmptyString EmptyString [] [TElement signed']) = Ok str ∧
    FindElement signed' "/Signature/KeyInfo" = Some keyInfo' ∧
    ChildElements keyInfo' = [KeyName] ∧
    all_chars upper_hex keyNameString = true ∧
    String.length keyNameString = 2 * List.length (sha1_Sum leaf).
Proof.
  intros Hsign Hchain Hfound Hwrite keyNameString KeyName.
  destruct (FindElementPos_is_Some _ _ Hfound) as [p Hp].
  destruct (FindElementPos_FindElement _ _ _ Hp) as [Hfind [k Hk]].
  set (f1 := RemoveChildElements).
  set (f2 := fun k => CreateTextElement k "KeyName" keyNameString).
  set (keyInfo' := mkElement (Space k) (Tag k) (Attrs k)
        (List.filter (λ t, negb (bool_decide (is_Some (token_element t)))) (Child k)
         ++ [TElement KeyName])).
  assert (Hedit : update f2 (update f1 signed p) p = update (λ _, keyInfo') signed p).
  { rewrite update_update. by rewrite (update_at _ _ _ _ Hk). }
  set (signed' := update (λ _, keyInfo') signed p).
  destruct (Hwrite (mkElement EmptyString EmptyString [] [TElement signed'])) as [str Hstr].
  pose proof (FindElementPos_length _ _ _ _ compilePath_KeyInfo Hp) as Hlen.
  assert (Hp' : FindElementPos signed' "/Signature/KeyInfo" = Some p).
  { unfold signed'. rewrite <- Hedit. cbn in Hlen.
    rewrite (FindElementPos_update f2 _ _ _ _ (λ _, eq_refl) (λ _, eq_refl) compilePath_KeyInfo)
      by (cbn; lia).
    rewrite (FindElementPos_update f1 _ _ _ _ (λ _, eq_refl) (λ _, eq_refl) compilePath_KeyInfo)
      by (cbn; lia).
    done. }
  exists p, k, str. split; [exact Hp|]. split; [by rewrite Hfind|]. split; [exact Hk|].
  cbv zeta. fold keyInfo' signed'. split; [|split; [exact Hstr|split; [|split; [|split]]]].
  - unfold CommonClient_signMessage. rewrite Hsign. cbn. unfold index. rewrite Hchain. cbn.
    rewrite Hp. cbn.
    match goal with
    | |- context [etree_WriteToString ?d] =>
        change d with (mkElement EmptyString EmptyString []
                         [TElement (update f2 (update f1 signed p) p)])
    end.
    rewrite Hedit. fold signed'. by rewrite Hstr.
  - destruct (FindElementPos_FindElement _ _ _ Hp') as [-> _].
    exact (subtree_update (λ _, keyInfo') p signed k Hk).
  - pose proof (RemoveChildElements_ChildElements k) as Hnone.
    unfold RemoveChildElements, ChildElements in Hnone. cbn [Child with_children] in Hnone.
    unfold keyInfo', ChildElements. cbn [Child]. by rewrite omap_app, Hnone.
  - apply EncodeToString_upper_hex.
  - apply EncodeToString_upper_hex.
Qed.

Lemma signMessage_KeyName_witness :
  @CommonClient_signMessage (Sample.collaborators Sample.AcquirerErrorRes)
    Sample.client Sample.DirectoryRes = Ok (xml_Header +:+ "<signed/>").
Proof.
  destruct (@signMessage_KeyName (Sample.collaborators Sample.AcquirerErrorRes) Sample.client
              Sample.DirectoryRes
              (with_children Sample.DirectoryRes (Child Sample.DirectoryRes ++ [Sample.Signature]))
              [Byte.x30; Byte.x82] [])
    as (p & keyInfo & str & _ & _ & _ & Hout & Hstr & _).
  - reflexivity.
  - reflexivity.
  - vm_compute. eauto.
  - intros doc. eexists. reflexivity.
  - rewrite Hout. cbn in Hstr. injection Hstr as <-. reflexivity.
Defined.

(** ** The message builder *)

(** C4. Whatever the field values, the message [NewTransaction] builds, in
    the payment and in the identity variant, has its Issuer block before its
    Merchant block. *)
Theorem NewTransaction_Issuer_before_Merchant `{Collaborators}
    (ideal : IDealClient) (idin : IDINClient)
    (issuer purchaseID amount description entranceCode id : string) (attributes : Z) :
  (∃ t, IDealClient_NewTransaction ideal issuer purchaseID amount description entranceCode = Ok t
        ∧ Issuer_before_Merchant (IDeal_msg t))
  ∧ (∃ t, IDINClient_NewTransaction idin issuer entranceCode id attributes = Ok t
          ∧ Issuer_before_Merchant (IDIN_msg t)).
Proof.
  split.
  - eexists. split; [vm_compute; reflexivity|].
    cbn. eexists [_], _, [], _, [_]. cbn. repeat split.
    repeat (apply List.Forall_cons || apply List.Forall_nil); intros e [= <-]; cbn; done.
  - unfold IDINClient_NewTransaction. generalize (Strings.Itoa attributes). intros index.
    eexists. split; [vm_compute; reflexivity|].
    cbn. eexists [_], _, [], _, [_]. cbn. repeat split.
    repeat (apply List.Forall_cons || apply List.Forall_nil); intros e [= <-]; cbn; done.
Qed.

(** C10. The Transaction block the payment-variant [NewTransaction] builds
    holds one currency element, with text EUR, and one language element, with
    text nl, whatever the client and the arguments are. *)
Theorem IDeal_NewTransaction_currency_language `{Collaborators} (c : IDealClient)
    (issuer purchaseID amount description entranceCode : string) :
  ∃ t, IDealClient_NewTransaction c issuer purchaseID amount description entranceCode = Ok t
       ∧ Text <$> FindElements (IDeal_msg t) "/Transaction/currency" = ["EUR"]
       ∧ Text <$> FindElements (IDeal_msg t) "/Transaction/language" = ["nl"]
       ∧ List.length (FindElements (IDeal_msg t) "/Transaction") = 1.
Proof. eexists. split; [vm_compute; reflexivity|]. by vm_compute. Qed.

(** C2 (as the code has it). The identity-variant [NewTransaction] builds
    the message for every bitmask and every identifier: the identifier is
    written as the ID attribute of the authentication request and the bitmask,
    in decimal, as its AttributeConsumingServiceIndex attribute. *)
Theorem IDIN_NewTransaction_always_emits `{Collaborators} (c : IDINClient)
    (issuer entranceCode id : string) (attributes : Z) :
  ∃ t req, IDINClient_NewTransaction c issuer entranceCode id attributes = Ok t
       ∧ FindElements (IDIN_msg t) "/Transaction/container/AuthnRequest" = [req]
       ∧ SelectAttrValue req "ID" EmptyString = id
       ∧ SelectAttrValue req "AttributeConsumingServiceIndex" EmptyString = Strings.Itoa attributes.
Proof.
  unfold IDINClient_NewTransaction. generalize (Strings.Itoa attributes). intros index.
  do 2 eexists. split; [vm_compute; reflexivity|]. by vm_compute.
Qed.

(** C2, at a zero bitmask and an empty identifier: no validation error is
    reported, the message is emitted with ID empty and index 0. *)
Lemma IDIN_NewTransaction_zero_bitmask_emitted :
  let call := @IDINClient_NewTransaction (Sample.collaborators Sample.DirectoryRes)
                (mkIDINClient Sample.client) "INGBNL2A" "entrance" EmptyString 0 in
  (¬ ∃ e, call = Fail e)
  ∧ ∃ t req, call = Ok t
       ∧ FindElement (IDIN_msg t) "/Transaction/container/AuthnRequest" = Some req
       ∧ SelectAttrValue req "ID" EmptyString = EmptyString
       ∧ SelectAttrValue req "AttributeConsumingServiceIndex" EmptyString = "0".
Proof.
  split.
  - intros [e He]. vm_compute in He. discriminate.
  - do 2 eexists. split; [vm_compute; reflexivity|]. by vm_compute.
Qed.

(** ** Directory parsing *)

(** What a path with a leading slash finds does not depend on the element it
    is asked of. *)
Lemma absolute_path_ignores_receiver (root e e' : Element) (tags : string) :
  FindElementsIn root e (String "/"%char tags) = FindElementsIn root e' (String "/"%char tags).
Proof.
  unfold FindElementsIn, compilePath.
  by destruct (forallb plain_tag (Strings.Split tags "/"%char)).
Qed.

(** C1, on the directory answer of two countries (Netherlands with ING and
    Rabobank, Belgium with BNP): every path of [parseDirectoryRequest] is
    absolute, so each of the two passes over the countries reads the first
    country name and, for each of the three issuers of the document, the
    first issuer.  The directory has the one key Netherlands with six copies
    of (INGBNL2A, ING), not the two keys with their own issuers. *)
Theorem parseDirectoryRequest_two_countries (c : CommonClient) :
  ∃ d, CommonClient_parseDirectoryRequest c Sample.DirectoryRes = Ok d
     ∧ Issuers d !! "Netherlands" = Some (replicate 6 (mkIssuer "INGBNL2A" "ING"))
     ∧ Issuers d !! "Belgium" = None
     ∧ d ≠ Sample.Directory_expected.
Proof.
  eexists. split; [vm_compute; reflexivity|].
  split; [by vm_compute|]. split; [by vm_compute|].
  intros Heq. apply (f_equal (λ d, Issuers d !! "Belgium")) in Heq.
  vm_compute in Heq. discriminate.
Qed.

(** ** Calls in sequence *)

Section Sequencing.
Context {A C : Type}.

Lemma bind_Ok (m : M A) (f : A → M C) tr a tr' :
  m tr = (Ok a, tr') → (m ≫= f) tr = f a tr'.
Proof. unfold mbind, M_bind. by intros ->. Qed.

Lemma bind_Fail (m : M A) (f : A → M C) tr e tr' :
  m tr = (Fail e, tr') → (m ≫= f) tr = (Fail e, tr').
Proof. unfold mbind, M_bind. by intros ->. Qed.

Lemma bind_Panic (m : M A) (f : A → M C) tr p tr' :
  m tr = (Panic p, tr') → (m ≫= f) tr = (Panic p, tr').
Proof. unfold mbind, M_bind. by intros ->. Qed.

Lemma hoare_bind I (m : M A) (f : A → M C) Q R :
  hoare I m Q → (∀ a, Q a → hoare I (f a) R) → hoare I (m ≫= f) R.
Proof.
  intros Hm Hf tr Htr. destruct (Hm tr Htr) as [HI HQ].
  unfold mbind, M_bind. destruct (m tr) as [[a|e|p] tr1]; cbn in *; [|done..].
  by apply (Hf a); [apply HQ|].
Qed.

End Sequencing.

Lemma hoare_lift {A} I (r : result A) : hoare I (lift r) (λ a, r = Ok a).
Proof. by intros tr Htr. Qed.

Lemma hoare_ret {A} I (a : A) : hoare I (mret a) (λ _, True).
Proof. by intros tr Htr. Qed.

Lemma hoare_weaken {A} I (m : M A) (Q R : A → Prop) :
  hoare I m Q → (∀ a, Q a → R a) → hoare I m R.
Proof. intros Hm HQR tr Htr. destruct (Hm tr Htr). naive_solver. Qed.

Lemma hoare_emit I ev : (∀ tr, I tr → I (tr ++ [ev])) → hoare I (emit ev) (λ _, True).
Proof. intros Hev tr Htr. split; [by apply Hev|done]. Qed.

Lemma hoare_forEachM {A S} I (body : A → S → M S) (l : list A) (s : S) :
  (∀ x s, hoare I (body x s) (λ _, True)) → hoare I (forEachM l body s) (λ _, True).
Proof.
  intros Hbody. revert s. induction l as [|x l IH]; intros s; [apply hoare_ret|].
  cbn. eapply hoare_bind; [apply Hbody|]. intros s' _. apply IH.
Qed.

Lemma no_envelope_validated_snoc tr ev :
  no_envelope_validated tr →
  (∀ el, ev = EvValidate el → Tag el ≠ "AcquirerErrorRes") →
  no_envelope_validated (tr ++ [ev]).
Proof.
  intros Htr Hev el [Hin|Hin]%elem_of_app; [by apply Htr|].
  apply list_elem_of_singleton in Hin. by apply Hev.
Qed.

(** ** The transport and the error envelope *)

Section Exchange.
Context `{Collaborators}.

Lemma CommonClient_request_hoare c msg :
  hoare no_envelope_validated (CommonClient_request c msg) (λ _, True).
Proof.
  unfold CommonClient_request.
  destruct (http_NewRequest "POST" (BaseURL c) msg); [by intros tr Htr|].
  eapply hoare_bind.
  { apply hoare_emit. intros tr Htr. by apply no_envelope_validated_snoc. }
  intros _ _. eapply hoare_bind; [apply hoare_lift|]. intros resp _.
  destruct (negb _); eapply hoare_weaken; try apply hoare_lift; done.
Qed.

(** A document [request] hands on does not have the error envelope as its
    first element. *)
Lemma IDealClient_request_hoare (c : IDealClient) msg :
  hoare no_envelope_validated (IDealClient_request c msg)
    (λ doc, ∀ root, ChildElements doc !! 0 = Some root → Tag root ≠ "AcquirerErrorRes").
Proof.
  unfold IDealClient_request.
  eapply hoare_bind; [apply CommonClient_request_hoare|]. intros doc _.
  eapply hoare_bind; [apply hoare_lift|]. intros root Hroot.
  unfold index in Hroot. destruct (ChildElements doc !! 0) as [root'|] eqn:Hdoc; [|done].
  injection Hroot as ->.
  destruct (String.eqb_spec (Tag root) "AcquirerErrorRes") as [Heq|Hne].
  - eapply hoare_bind; [apply hoare_lift|]. intros e _. by intros tr Htr.
  - intros tr Htr. split; [done|]. intros a [= <-] root'. rewrite Hdoc. by intros [= <-].
Qed.

Lemma IDINClient_request_hoare (c : IDINClient) msg :
  hoare no_envelope_validated (IDINClient_request c msg)
    (λ doc, ∀ root, ChildElements doc !! 0 = Some root → Tag root ≠ "AcquirerErrorRes").
Proof. apply (IDealClient_request_hoare (mkIDealClient c)). Qed.

Lemma validateMessage_hoare c doc :
  (∀ root, ChildElements doc !! 0 = Some root → Tag root ≠ "AcquirerErrorRes") →
  hoare no_envelope_validated (CommonClient_validateMessage c doc) (λ _, True).
Proof.
  intros Hdoc. unfold CommonClient_validateMessage.
  eapply hoare_bind; [apply hoare_lift|]. intros el Hel.
  unfold index in Hel. destruct (ChildElements doc !! 0) as [root|] eqn:Hroot; [|done].
  injection Hel as ->.
  eapply hoare_bind.
  { apply hoare_emit. intros tr Htr. apply no_envelope_validated_snoc; [done|].
    intros ? [= <-]. by apply Hdoc. }
  intros _ _. eapply hoare_weaken; [apply hoare_lift|done].
Qed.

Lemma IDIN_decryptAttribute_hoare c el attributes :
  hoare no_envelope_validated (IDIN_decryptAttribute c el attributes) (λ _, True).
Proof.
  unfold IDIN_decryptAttribute.
  eapply hoare_bind; [apply hoare_lift|]. intros key _.
  eapply hoare_bind.
  { apply hoare_emit. intros tr Htr. by apply no_envelope_validated_snoc. }
  intros _ _. repeat (eapply hoare_bind; [apply hoare_lift|]; intros ? _).
  apply hoare_ret.
Qed.

End Exchange.

Section ErrorEnvelope.
Context `{Collaborators}.

Lemma request_envelope (c : CommonClient) msg tr doc tr' root :
  CommonClient_request c msg tr = (Ok doc, tr') →
  ChildElements doc !! 0 = Some root → Tag root = "AcquirerErrorRes" →
  let answer := (result_bind (λ e, Fail (ErrAcquirer e)) (read_AcquirerError doc), tr') in
  IDealClient_request (mkIDealClient c) msg tr = answer
  ∧ IDINClient_request (mkIDINClient c) msg tr = answer.
Proof.
  intros Hreq Hroot Htag answer.
  split; [unfold IDealClient_request|unfold IDINClient_request];
    ( rewrite (bind_Ok _ _ _ _ _ Hreq);
      erewrite bind_Ok; [|unfold lift, index; by rewrite Hroot];
      rewrite Htag, String.eqb_refl; unfold mbind, M_bind, lift, answer;
      by destruct (read_AcquirerError doc) ).
Qed.

Lemma API_calls_hoare :
  (∀ c : IDealClient, hoare no_envelope_validated (IDealClient_DirectoryRequest c) (λ _, True))
  ∧ (∀ (c : IDealClient) trxid,
       hoare no_envelope_validated (IDealClient_TransactionStatus c trxid) (λ _, True))
  ∧ (∀ t, hoare no_envelope_validated (IDealTransaction_Start t) (λ _, True))
  ∧ (∀ c : IDINClient, hoare no_envelope_validated (IDINClient_DirectoryRequest c) (λ _, True))
  ∧ (∀ (c : IDINClient) trxid,
       hoare no_envelope_validated (IDINClient_TransactionStatus c trxid) (λ _, True))
  ∧ (∀ t, hoare no_envelope_validated (IDINTransaction_Start t) (λ _, True)).
Proof.
  assert (Hideal : ∀ (c : IDealClient) signed,
    hoare no_envelope_validated
      (IDealClient_request c signed ≫= CommonClient_validateMessage c) (λ _, True)).
  { intros c signed. eapply hoare_bind; [apply IDealClient_request_hoare|].
    intros doc Hdoc. by apply validateMessage_hoare. }
  assert (Hidin : ∀ (c : IDINClient) signed,
    hoare no_envelope_validated
      (IDINClient_request c signed ≫= CommonClient_validateMessage c) (λ _, True)).
  { intros c signed. eapply hoare_bind; [apply IDINClient_request_hoare|].
    intros doc Hdoc. by apply validateMessage_hoare. }
  assert (Hlift : ∀ A (r : result A), hoare no_envelope_validated (lift r) (λ _, True)).
  { intros A r. eapply hoare_weaken; [apply hoare_lift|done]. }
  repeat apply conj.
  - intros c. unfold IDealClient_DirectoryRequest.
    do 2 (eapply hoare_bind; [apply Hlift|]; intros ? _).
    eapply hoare_bind; [apply IDealClient_request_hoare|]. intros doc Hdoc.
    eapply hoare_bind; [by apply validateMessage_hoare|]. intros ? _. apply Hlift.
  - intros c trxid. unfold IDealClient_TransactionStatus, IDealClient_statusResponse.
    eapply hoare_bind; [|intros ? _; apply Hlift].
    do 2 (eapply hoare_bind; [apply Hlift|]; intros ? _). apply Hideal.
  - intros t. unfold IDealTransaction_Start.
    eapply hoare_bind; [apply Hlift|]; intros ? _.
    eapply hoare_bind; [apply IDealClient_request_hoare|]. intros doc Hdoc.
    eapply hoare_bind; [by apply validateMessage_hoare|]. intros ? _. apply Hlift.
  - intros c. unfold IDINClient_DirectoryRequest.
    do 2 (eapply hoare_bind; [apply Hlift|]; intros ? _).
    eapply hoare_bind; [apply IDINClient_request_hoare|]. intros doc Hdoc.
    eapply hoare_bind; [by apply validateMessage_hoare|]. intros ? _. apply Hlift.
  - intros c trxid. unfold IDINClient_TransactionStatus, IDINClient_statusResponse.
    eapply hoare_bind.
    { do 2 (eapply hoare_bind; [apply Hlift|]; intros ? _). apply Hidin. }
    intros root _. eapply hoare_bind; [apply Hlift|]. intros idEl _.
    destruct (negb _); [apply Hlift|].
    eapply hoare_bind; [apply Hlift|]. intros statusCodeEl _.
    destruct (IDIN_status _) as [status|]; [|apply Hlift].
    destruct (decide (status = Success)); [|apply hoare_ret].
    eapply hoare_bind; [|intros ? _; apply hoare_ret].
    apply hoare_forEachM. intros el attrs. apply IDIN_decryptAttribute_hoare.
  - intros t. unfold IDINTransaction_Start.
    eapply hoare_bind; [apply Hlift|]; intros ? _.
    eapply hoare_bind; [apply IDINClient_request_hoare|]. intros doc Hdoc.
    eapply hoare_bind; [by apply validateMessage_hoare|]. intros ? _. apply Hlift.
Qed.

End ErrorEnvelope.

(** C5. When the document received has the error envelope as its first
    element, both [request] methods hand on no document, whatever the
    envelope holds, and record nothing after the post; with an element at
    each of the four fixed paths, what they return is the [AcquirerError] of
    the four texts read there.  No call of the package ever asks for the
    validation of an element tagged as the error envelope: the envelope is
    detected before validation. *)
Theorem AcquirerErrorRes_detected `{Collaborators} :
  (∀ (c : CommonClient) request,
     request = IDealClient_request (mkIDealClient c)
     ∨ request = IDINClient_request (mkIDINClient c) →
     ∀ msg tr doc tr' root,
       CommonClient_request c msg tr = (Ok doc, tr') →
       ChildElements doc !! 0 = Some root → Tag root = "AcquirerErrorRes" →
       (request msg tr).2 = tr'
       ∧ (∀ d, (request msg tr).1 ≠ Ok d)
       ∧ (∀ errorCode errorMessage errorDetail consumerMessage,
            FindElement doc "/AcquirerErrorRes/Error/errorCode" = Some errorCode →
            FindElement doc "/AcquirerErrorRes/Error/errorMessage" = Some errorMessage →
            FindElement doc "/AcquirerErrorRes/Error/errorDetail" = Some errorDetail →
            FindElement doc "/AcquirerErrorRes/Error/consumerMessage" = Some consumerMessage →
            (request msg tr).1
            = Fail (ErrAcquirer (mkAcquirerError (Text errorCode) (Text errorMessage)
                                   (Text errorDetail) (Text consumerMessage)))))
  ∧ (∀ tr, no_envelope_validated tr →
       (∀ c, no_envelope_validated (IDealClient_DirectoryRequest c tr).2)
       ∧ (∀ c trxid, no_envelope_validated (IDealClient_TransactionStatus c trxid tr).2)
       ∧ (∀ t, no_envelope_validated (IDealTransaction_Start t tr).2)
       ∧ (∀ c, no_envelope_validated (IDINClient_DirectoryRequest c tr).2)
       ∧ (∀ c trxid, no_envelope_validated (IDINClient_TransactionStatus c trxid tr).2)
       ∧ (∀ t, no_envelope_validated (IDINTransaction_Start t tr).2)).
Proof.
  split.
  - intros c request Hrequest msg tr doc tr' root Hreq Hroot Htag.
    assert (Hrun : request msg tr
                   = (result_bind (λ e, Fail (ErrAcquirer e)) (read_AcquirerError doc), tr')).
    { destruct (request_envelope c msg tr doc tr' root Hreq Hroot Htag) as [Hideal Hidin].
      by destruct Hrequest as [-> | ->]. }
    rewrite Hrun. cbn [fst snd]. repeat apply conj; [done| |].
    + intros d. by destruct (read_AcquirerError doc).
    + intros e1 e2 e3 e4 H1 H2 H3 H4. unfold read_AcquirerError.
      unfold mbind, result_mbind. by rewrite H1, H2, H3, H4.
  - intros tr Htr. destruct API_calls_hoare as (H1 & H2 & H3 & H4 & H5 & H6).
    split; [intros c; exact (proj1 (H1 c tr Htr))|].
    split; [intros c trxid; exact (proj1 (H2 c trxid tr Htr))|].
    split; [intros t; exact (proj1 (H3 t tr Htr))|].
    split; [intros c; exact (proj1 (H4 c tr Htr))|].
    split; [intros c trxid; exact (proj1 (H5 c trxid tr Htr))|].
    intros t; exact (proj1 (H6 t tr Htr)).
Qed.

Lemma AcquirerErrorRes_detected_witness :
  let W := Sample.collaborators (Sample.document Sample.AcquirerErrorRes) in
  (@IDealClient_request W (mkIDealClient Sample.client) "<signed/>" []).1
  = Fail (ErrAcquirer (mkAcquirerError "SO1000" "System error" "..." "Something went wrong")).
Proof.
  intros W.
  destruct (@AcquirerErrorRes_detected W) as [Hrequest _].
  destruct (Hrequest Sample.client (IDealClient_request (mkIDealClient Sample.client))
              (or_introl eq_refl) "<signed/>" []
              (Sample.document Sample.AcquirerErrorRes)
              [EvPost "https://bank.example/ideal" "<signed/>"]
              Sample.AcquirerErrorRes)
    as (_ & _ & Hfields).
  - vm_compute. reflexivity.
  - vm_compute. reflexivity.
  - vm_compute. reflexivity.
  - apply (Hfields (Sample.el "errorCode" [TCharData "SO1000"])
                   (Sample.el "errorMessage" [TCharData "System error"])
                   (Sample.el "errorDetail" [TCharData "..."])
                   (Sample.el "consumerMessage" [TCharData "Something went wrong"]));
      vm_compute; reflexivity.
Defined.

(** A document tagged as the error envelope that lacks the Error block: the
    first [FindElement] returns nil and [request] panics. *)
Example request_envelope_without_fields :
  let W := Sample.collaborators (Sample.document (Sample.el "AcquirerErrorRes" [])) in
  @IDealClient_request W (mkIDealClient Sample.client) "<signed/>" []
  = (Panic NilDereference, [EvPost "https://bank.example/ideal" "<signed/>"]).
Proof. vm_compute. reflexivity. Qed.

(** ** Status interpretation *)

Lemma lift_bind_Ok {A C} (r : result A) (f : A → M C) a tr :
  r = Ok a → (lift r ≫= f) tr = f a tr.
Proof. by intros ->. Qed.

Lemma IDeal_status_invalid s : s ∉ IDeal_statuses → IDeal_status s = InvalidStatus.
Proof.
  intros Hs. unfold IDeal_status.
  repeat match goal with
         | |- context [String.eqb s ?t] =>
             destruct (String.eqb_spec s t) as [->|_];
             [exfalso; apply Hs; unfold IDeal_statuses; set_solver|]
         end.
  done.
Qed.

Lemma eqb_neq_negb s t : s ≠ t → negb (String.eqb s t) = true.
Proof. intros Hne. by destruct (String.eqb_spec s t). Qed.

Lemma eqb_eq_negb s : negb (String.eqb s s) = false.
Proof. by rewrite String.eqb_refl. Qed.

(** C3. A status call asks for TX1 and the validated answer echoes TX2 with
    the status Success.  The payment variant returns the error "idx: returned
    transaction ID does not match" and no status, and records nothing after
    the validation.  The identity variant does not: the answer holds the
    echoed identifier at /Transaction/transactionID, where ideal.go:87 and
    both [Start] methods read it, but idin.go:164 asks for
    /AcquirerStatusRes/Transaction/transactionID.  That path is resolved from
    the top of the validated tree, which is the AcquirerStatusRes element
    itself; it finds nothing, and the call panics on the nil element before
    the identifiers are compared. *)
Theorem TransactionStatus_id_mismatch_by_variant :
  let ideal := Sample.IDeal_StatusRes "TX2" "Success" in
  let idin := Sample.IDIN_StatusRes "TX2" Sample.Success_URI [Sample.EncryptedAttribute "good"] in
  @IDealClient_TransactionStatus (Sample.collaborators (Sample.document ideal))
    (mkIDealClient Sample.client) "TX1" []
  = (Fail (ErrorString "idx: returned transaction ID does not match"), Sample.trace ideal)
  ∧ Text <$> FindElement idin "/Transaction/transactionID" = Some "TX2"
  ∧ FindElement idin "/AcquirerStatusRes/Transaction/transactionID" = None
  ∧ @IDINClient_TransactionStatus (Sample.collaborators (Sample.document idin))
      (mkIDINClient Sample.client) "TX1" []
    = (Panic NilDereference, Sample.trace idin).
Proof.
  intros ideal idin. split; [|split; [|split]].
  - vm_compute. reflexivity.
  - vm_compute. reflexivity.
  - vm_compute. reflexivity.
  - vm_compute. reflexivity.
Qed.

(** C6. A status call asks for TX1 and the validated answer echoes TX1 with
    the unknown status Pending.  The payment variant returns the error
    "ideal: invalid status: Pending" and no result.  The identity variant
    does not reach its [switch]: the answer holds the status code with the
    Value urn:oasis:names:tc:SAML:2.0:status:Pending, which the [switch] of
    idin.go:173 sends to its [default], but the lookups of idin.go:164 and
    169 start with /AcquirerStatusRes at the top of the validated tree, find
    nothing, and the call panics on the nil element. *)
Theorem TransactionStatus_invalid_status_by_variant :
  let Pending := "urn:oasis:names:tc:SAML:2.0:status:Pending" in
  let ideal := Sample.IDeal_StatusRes "TX1" "Pending" in
  let idin := Sample.IDIN_StatusRes "TX1" Pending [] in
  @IDealClient_TransactionStatus (Sample.collaborators (Sample.document ideal))
    (mkIDealClient Sample.client) "TX1" []
  = (Fail (ErrorString "ideal: invalid status: Pending"), Sample.trace ideal)
  ∧ (λ statusCodeEl, SelectAttrValue statusCodeEl "Value" EmptyString)
      <$> FindElement idin "/Transaction/container/Response/Status/StatusCode"
    = Some Pending
  ∧ IDIN_status Pending = None
  ∧ FindElement idin "/AcquirerStatusRes/Transaction/container/Response/Status/StatusCode"
    = None
  ∧ @IDINClient_TransactionStatus (Sample.collaborators (Sample.document idin))
      (mkIDINClient Sample.client) "TX1" []
    = (Panic NilDereference, Sample.trace idin).
Proof.
  intros Pending ideal idin. split; [|split; [|split; [|split]]].
  - vm_compute. reflexivity.
  - vm_compute. reflexivity.
  - reflexivity.
  - vm_compute. reflexivity.
  - vm_compute. reflexivity.
Qed.

(** C7. For a payment-variant status response that echoes the identifier
    asked for: with status text Success and an element at each of the five
    payload locations, the result is Success with the five texts found there;
    with one of the four other known status texts, the result is that status
    with the five payload fields empty. *)
Theorem IDeal_TransactionStatus_payload `{Collaborators} (c : IDealClient) (trxid : string)
    (tr tr' : list Event) (response idEl statusEl : Element) :
  IDealClient_statusResponse c trxid tr = (Ok response, tr') →
  FindElement response "/Transaction/transactionID" = Some idEl →
  Text idEl = trxid →
  FindElement response "/Transaction/status" = Some statusEl →
  (Text statusEl = "Success" →
   ∀ consumerName consumerIBAN consumerBIC amount currency,
     FindElement response "/Transaction/consumerName" = Some consumerName →
     FindElement response "/Transaction/consumerIBAN" = Some consumerIBAN →
     FindElement response "/Transaction/consumerBIC" = Some consumerBIC →
     FindElement response "/Transaction/amount" = Some amount →
     FindElement response "/Transaction/currency" = Some currency →
     IDealClient_TransactionStatus c trxid tr
     = (Ok (mkIDealTransactionStatus Success (Text consumerName) (Text consumerIBAN)
              (Text consumerBIC) (Text amount) (Text currency)), tr'))
  ∧ (∀ status, status ∈ [Cancelled; Expired; Failure; Open] →
       Text statusEl = TransactionStatus_String status →
       IDealClient_TransactionStatus c trxid tr
       = (Ok (mkIDealTransactionStatus status EmptyString EmptyString EmptyString
                EmptyString EmptyString), tr')).
Proof.
  intros Hresponse Hid <- Hstatus.
  unfold IDealClient_TransactionStatus. rewrite (bind_Ok _ _ _ _ _ Hresponse).
  unfold lift. rewrite Hid, Hstatus. cbn [deref mbind result_mbind result_bind].
  rewrite eqb_eq_negb. split.
  - intros -> n i b a cu -> -> -> -> ->. reflexivity.
  - intros status Hin ->. set_unfold in Hin.
    destruct Hin as [->|[->|[->|[->|[]]]]]; reflexivity.
Qed.

(** ** Attribute decryption *)

(** C9. A status call asks for TX1 and the validated answer echoes TX1 with
    the status Success and three encrypted attributes, the second of which
    does not decrypt.  The call does not return the decryption error: the
    encrypted elements lie at
    /Transaction/container/Response/Assertion/AttributeStatement/EncryptedAttribute/EncryptedData
    of the validated tree, but every path of idin.go:164-193 starts with
    /AcquirerStatusRes at its top, so the first lookup finds nothing and the
    call panics on the nil element; no decryption is asked for. *)
Theorem IDIN_TransactionStatus_decryption_failure_unreached :
  let answer := Sample.IDIN_StatusRes "TX1" Sample.Success_URI
                  [Sample.EncryptedAttribute "good"; Sample.EncryptedAttribute "bad";
                   Sample.EncryptedAttribute "good"] in
  FindElements answer
    "/Transaction/container/Response/Assertion/AttributeStatement/EncryptedAttribute/EncryptedData"
  = [Sample.encrypted "good"; Sample.encrypted "bad"; Sample.encrypted "good"]
  ∧ Sample.decrypt (Sample.encrypted "bad") [Byte.x01]
    = Fail (ErrExternal FromDecryptor "xmlenc: decryption failed")
  ∧ FindElements answer
      "/AcquirerStatusRes/Transaction/container/Response/Assertion/AttributeStatement/EncryptedAttribute/EncryptedData"
    = []
  ∧ @IDINClient_TransactionStatus (Sample.collaborators (Sample.document answer))
      (mkIDINClient Sample.client) "TX1" []
    = (Panic NilDereference, Sample.trace answer).
Proof.
  intros answer. split; [|split; [|split]].
  - vm_compute. reflexivity.
  - vm_compute. reflexivity.
  - vm_compute. reflexivity.
  - vm_compute. reflexivity.
Qed.

(** ** The theorems at sample responses *)

Ltac not_in_list :=
  let Hin := fresh in
  intros Hin; vm_compute in Hin;
  repeat (apply elem_of_cons in Hin as [Hin|Hin]; [discriminate|]);
  by apply elem_of_nil in Hin.

Lemma IDeal_TransactionStatus_payload_witness :
  let paid := Sample.IDeal_StatusRes "TX1" "Success" in
  let open := Sample.IDeal_StatusRes "TX1" "Open" in
  @IDealClient_TransactionStatus (Sample.collaborators (Sample.document paid))
    (mkIDealClient Sample.client) "TX1" []
  = (Ok (mkIDealTransactionStatus Success "J. Jansen" "NL44RABO0123456789" "RABONL2U"
           "1.00" "EUR"), Sample.trace paid)
  ∧ @IDealClient_TransactionStatus (Sample.collaborators (Sample.document open))
      (mkIDealClient Sample.client) "TX1" []
    = (Ok (mkIDealTransactionStatus Open EmptyString EmptyString EmptyString EmptyString
             EmptyString), Sample.trace open).
Proof.
  intros paid open. split.
  - destruct (@IDeal_TransactionStatus_payload (Sample.collaborators (Sample.document paid))
                (mkIDealClient Sample.client) "TX1" [] (Sample.trace paid) paid
                (Sample.el "transactionID" [TCharData "TX1"])
                (Sample.el "status" [TCharData "Success"]))
      as [Hsuccess _]; [vm_compute; reflexivity..|].
    apply (Hsuccess eq_refl
             (Sample.el "consumerName" [TCharData "J. Jansen"])
             (Sample.el "consumerIBAN" [TCharData "NL44RABO0123456789"])
             (Sample.el "consumerBIC" [TCharData "RABONL2U"])
             (Sample.el "amount" [TCharData "1.00"])
             (Sample.el "currency" [TCharData "EUR"]));
      vm_compute; reflexivity.
  - destruct (@IDeal_TransactionStatus_payload (Sample.collaborators (Sample.document open))
                (mkIDealClient Sample.client) "TX1" [] (Sample.trace open) open
                (Sample.el "transactionID" [TCharData "TX1"])
                (Sample.el "status" [TCharData "Open"]))
      as [_ Hother]; [vm_compute; reflexivity..|].
    apply (Hother Open); [|reflexivity].
    do 3 apply list_elem_of_further. apply list_elem_of_here.
Defined.

(** * Further properties of the package *)

(** ** Messages built *)

(** X1. For every tag, [createMessage] builds the root with that tag, the
    creation timestamp and the Merchant block of merchant id and sub id; the
    payment variant adds the xmlns and version attributes, the identity
    variant the xmlns, version and productID attributes. *)
Theorem createMessage_tree `{Collaborators} (c : CommonClient) (tag : string) :
  let body :=
    [TElement (mkElement EmptyString "createDateTimestamp" [] [TCharData now]);
     TElement (mkElement EmptyString "Merchant" []
       [TElement (mkElement EmptyString "merchantID" [] [TCharData (MerchantID c)]);
        TElement (mkElement EmptyString "subID" [] [TCharData (SubID c)])])] in
  Build.run (CommonClient_createMessage c tag) = Ok (mkElement EmptyString tag [] body)
  ∧ Build.run (IDealClient_createMessage (mkIDealClient c) tag)
    = Ok (mkElement EmptyString tag
            [mkAttr EmptyString "xmlns" "http://www.idealdesk.com/ideal/messages/mer-acq/3.3.1";
             mkAttr EmptyString "version" "3.3.1"] body)
  ∧ Build.run (IDINClient_createMessage (mkIDINClient c) tag)
    = Ok (mkElement EmptyString tag
            [mkAttr EmptyString "xmlns"
               "http://www.betaalvereniging.nl/iDx/messages/Merchant-Acquirer/1.0.0";
             mkAttr EmptyString "version" "1.0.0";
             mkAttr EmptyString "productID" "NL:BVN:BankID:1.0"] body).
Proof. repeat apply conj; vm_compute; reflexivity. Qed.

(** X2. The payment-variant [NewTransaction] writes every argument, empty or
    not, as the text of exactly one element: the issuer in Issuer, the return
    URL of the client as third field of Merchant, and purchase id, amount,
    description and entrance code in Transaction, around the fixed currency
    and language.  The transaction it returns has no identifier and no
    redirect URL yet. *)
Theorem IDeal_NewTransaction_tree `{Collaborators} (c : IDealClient)
    (issuer purchaseID amount description entranceCode : string) :
  let leaf tag text := TElement (mkElement EmptyString tag [] [TCharData text]) in
  IDealClient_NewTransaction c issuer purchaseID amount description entranceCode
  = Ok (mkIDealTransaction c
          (mkElement EmptyString "AcquirerTrxReq"
             [mkAttr EmptyString "xmlns" "http://www.idealdesk.com/ideal/messages/mer-acq/3.3.1";
              mkAttr EmptyString "version" "3.3.1"]
             [leaf "createDateTimestamp" now;
              TElement (mkElement EmptyString "Issuer" [] [leaf "issuerID" issuer]);
              TElement (mkElement EmptyString "Merchant" []
                [leaf "merchantID" (MerchantID c); leaf "subID" (SubID c);
                 leaf "merchantReturnURL" (ReturnURL c)]);
              TElement (mkElement EmptyString "Transaction" []
                [leaf "purchaseID" purchaseID; leaf "amount" amount; leaf "currency" "EUR";
                 leaf "language" "nl"; leaf "description" description;
                 leaf "entranceCode" entranceCode])])
          EmptyString EmptyString).
Proof. vm_compute. reflexivity. Qed.

(** X3. The authentication request the identity-variant [NewTransaction]
    embeds takes its IssueInstant from the creation timestamp of the same
    message, its AssertionConsumerServiceURL from the return URL and its
    saml:Issuer from the merchant id of the client; version, binding and the
    minimum authentication context are fixed. *)
Theorem IDIN_NewTransaction_AuthnRequest `{Collaborators} (c : IDINClient)
    (issuer entranceCode id : string) (attributes : Z) :
  ∃ t, IDINClient_NewTransaction c issuer entranceCode id attributes = Ok t
    ∧ Text <$> FindElements (IDIN_msg t) "/createDateTimestamp" = [now]
    ∧ Text <$> FindElements (IDIN_msg t) "/Issuer/issuerID" = [issuer]
    ∧ Text <$> FindElements (IDIN_msg t) "/Merchant/merchantReturnURL" = [ReturnURL c]
    ∧ Text <$> FindElements (IDIN_msg t) "/Transaction/language" = ["nl"]
    ∧ Text <$> FindElements (IDIN_msg t) "/Transaction/entranceCode" = [entranceCode]
    ∧ FindElements (IDIN_msg t) "/Transaction/container/AuthnRequest"
      = [mkElement "samlp" "AuthnRequest"
           [mkAttr "xmlns" "samlp" "urn:oasis:names:tc:SAML:2.0:protocol";
            mkAttr "xmlns" "saml" "urn:oasis:names:tc:SAML:2.0:assertion";
            mkAttr EmptyString "ID" id;
            mkAttr EmptyString "Version" "2.0";
            mkAttr EmptyString "IssueInstant" now;
            mkAttr EmptyString "ProtocolBinding" "nl:bvn:bankid:1.0:protocol:iDx";
            mkAttr EmptyString "AssertionConsumerServiceURL" (ReturnURL c);
            mkAttr EmptyString "AttributeConsumingServiceIndex" (Strings.Itoa attributes)]
           [TElement (mkElement "saml" "Issuer" [] [TCharData (MerchantID c)]);
            TElement (mkElement "samlp" "RequestedAuthnContext"
              [mkAttr EmptyString "Comparison" "minimum"]
              [TElement (mkElement "saml" "AuthnContextClassRef" []
                 [TCharData "nl:bvn:bankid:1.0:loa3"])])]].
Proof.
  unfold IDINClient_NewTransaction. generalize (Strings.Itoa attributes). intros index.
  eexists. split; [vm_compute; reflexivity|]. by vm_compute.
Qed.

(** ** Status names, attribute flags, key names *)

(** X4. The two status decoders agree with [String]: each of the five
    statuses is decoded from its own name (payment variant) and from the
    SAML status URI ending in its name (identity variant), and a text that
    either decoder accepts is that name resp. that URI.  Neither decoder
    yields [InvalidStatus] for an accepted text. *)
Theorem status_decoders_String (status : TransactionStatus) (text : string) :
  (status ≠ InvalidStatus →
     IDeal_status (TransactionStatus_String status) = status
     ∧ IDIN_status (IDIN_status_prefix +:+ TransactionStatus_String status) = Some status)
  ∧ (IDeal_status text ≠ InvalidStatus →
       TransactionStatus_String (IDeal_status text) = text)
  ∧ (IDIN_status text = Some status →
       text = IDIN_status_prefix +:+ TransactionStatus_String status
       ∧ status ≠ InvalidStatus).
Proof.
  repeat apply conj.
  - intros Hvalid. by destruct status.
  - unfold IDeal_status.
    repeat match goal with
           | |- context [String.eqb text ?t] => destruct (String.eqb_spec text t) as [->|_]
           end; done.
  - unfold IDIN_status.
    repeat match goal with
           | |- context [String.eqb text ?t] => destruct (String.eqb_spec text t) as [->|_]
           end; by intros [= <-].
Qed.

Lemma status_decoders_String_witness :
  IDeal_status (TransactionStatus_String Expired) = Expired
  ∧ TransactionStatus_String (IDeal_status "Open") = "Open"
  ∧ "urn:oasis:names:tc:SAML:2.0:status:Failure"
    = IDIN_status_prefix +:+ TransactionStatus_String Failure.
Proof.
  split; [|split].
  - apply (status_decoders_String Expired EmptyString). discriminate.
  - apply (status_decoders_String Open "Open"). vm_compute. discriminate.
  - apply (status_decoders_String Failure "urn:oasis:names:tc:SAML:2.0:status:Failure").
    reflexivity.
Defined.

Lemma IDIN_flags_disjoint (f g : Z) :
  f ∈ IDIN_flags → g ∈ IDIN_flags → Z.land g f = (if decide (g = f) then f else 0)%Z.
Proof.
  unfold IDIN_flags. intros Hf Hg. set_unfold in Hf. set_unfold in Hg.
  destruct Hf as [->|[->|[->|[->|[->|[->|[->|[]]]]]]]];
    destruct Hg as [->|[->|[->|[->|[->|[->|[->|[]]]]]]]]; by vm_compute.
Qed.

(** X5. The attribute flags can be combined by ORing and read back: for flags
    taken from the seven of the package, the bits of a flag are all set in
    the combination when the flag was combined, and none of them is set
    otherwise. *)
Theorem IDIN_flags_combine (flags : list Z) (f : Z) :
  Forall (λ g, g ∈ IDIN_flags) flags → f ∈ IDIN_flags →
  Z.land (foldr Z.lor 0%Z flags) f = (if decide (f ∈ flags) then f else 0)%Z.
Proof.
  intros Hflags Hf. induction Hflags as [|g flags Hg _ IH]; cbn [foldr].
  - rewrite decide_False by apply not_elem_of_nil. reflexivity.
  - rewrite Z.land_lor_distr_l, IH, (IDIN_flags_disjoint f g Hf Hg).
    destruct (decide (g = f)) as [->|Hne].
    + rewrite (decide_True (P := f ∈ f :: flags)) by apply list_elem_of_here.
      destruct (decide (f ∈ flags)); [apply Z.lor_diag|apply Z.lor_0_r].
    + destruct (decide (f ∈ flags)) as [Hin|Hnin].
      * rewrite decide_True by by apply list_elem_of_further. reflexivity.
      * rewrite decide_False; [reflexivity|].
        intros [Heq|Hin]%elem_of_cons; [by apply Hne|by apply Hnin].
Qed.

Lemma IDIN_flags_combine_witness :
  Z.land (foldr Z.lor 0%Z [IDINServiceIDName; IDINServiceIDDateOfBirth]) IDINServiceIDDateOfBirth
  = 448%Z
  ∧ Z.land (foldr Z.lor 0%Z [IDINServiceIDName; IDINServiceIDDateOfBirth]) IDINServiceIDEmail
    = 0%Z.
Proof.
  split.
  - rewrite (IDIN_flags_combine [IDINServiceIDName; IDINServiceIDDateOfBirth]
               IDINServiceIDDateOfBirth); [reflexivity| |].
    + repeat (apply List.Forall_cons || apply List.Forall_nil); unfold IDIN_flags; set_solver.
    + unfold IDIN_flags; set_solver.
  - rewrite (IDIN_flags_combine [IDINServiceIDName; IDINServiceIDDateOfBirth]
               IDINServiceIDEmail); [reflexivity| |].
    + repeat (apply List.Forall_cons || apply List.Forall_nil); unfold IDIN_flags; set_solver.
    + unfold IDIN_flags; set_solver.
Defined.

Lemma hex_value_byte (b : byte) :
  Byte.to_N b
  = (16 * hex_value (Strings.upper (Hex.digit (N.shiftr (Byte.to_N b) 4)))
     + hex_value (Strings.upper (Hex.digit (N.land (Byte.to_N b) 15))))%N.
Proof. destruct b; vm_compute; reflexivity. Qed.

(** X6. The key name [signMessage] computes, the upper-case hexadecimal text
    of the digest, determines the digest: two digests with the same key name
    are equal. *)
Theorem keyNameString_injective (digest digest' : list byte) :
  Strings.ToUpper (Hex.EncodeToString digest) = Strings.ToUpper (Hex.EncodeToString digest') →
  digest = digest'.
Proof.
  revert digest'. induction digest as [|b digest IH]; intros [|b' digest']; cbn; try done.
  intros [= Hhi Hlo Hrest]. f_equal; [|by apply IH].
  apply (inj Some). rewrite <- (Byte.of_to_N b), <- (Byte.of_to_N b').
  by rewrite (hex_value_byte b), (hex_value_byte b'), Hhi, Hlo.
Qed.

Lemma keyNameString_injective_witness : [Byte.xab; Byte.x0f] = [Byte.xab; Byte.x0f].
Proof. apply keyNameString_injective. reflexivity. Defined.

(** ** The transport *)

(** X7. [CommonClient.request]: when the request cannot be created its error
    is returned and nothing is posted; otherwise exactly one post of the
    message to the base URL is recorded, and an answer whose status code is
    not 200 gives the error "idx: HTTP error: " followed by the status text,
    whatever its body, while an answer with status code 200 gives what
    reading its body gives. *)
Theorem CommonClient_request_outcomes `{Collaborators} (c : CommonClient) (msg : string)
    (tr : list Event) :
  (∀ err, http_NewRequest "POST" (BaseURL c) msg = Some err →
     CommonClient_request c msg tr = (Fail err, tr))
  ∧ (http_NewRequest "POST" (BaseURL c) msg = None →
       (CommonClient_request c msg tr).2 = tr ++ [EvPost (BaseURL c) msg]
       ∧ ∀ resp, http_Do (BaseURL c) request_headers msg = Ok resp →
           (StatusCode resp ≠ 200%Z →
              (CommonClient_request c msg tr).1
              = Fail (ErrorString ("idx: HTTP error: " +:+ Status resp)))
           ∧ (StatusCode resp = 200%Z →
                (CommonClient_request c msg tr).1 = etree_ReadFrom (Body resp))).
Proof.
  unfold CommonClient_request. split.
  - by intros err ->.
  - intros ->. unfold mbind, M_bind, emit, lift. cbn.
    destruct (http_Do (BaseURL c) request_headers msg) as [resp| |] eqn:Hdo.
    + split; [by destruct (negb _)|]. intros resp' [= <-]. split; intros Hcode.
      * by apply Z.eqb_neq in Hcode as ->.
      * by rewrite Hcode.
    + by split.
    + by split.
Qed.

Lemma CommonClient_request_outcomes_witness :
  (@CommonClient_request (Sample.collaborators (Sample.document Sample.DirectoryRes))
     Sample.client "<signed/>" []).1
  = Ok (Sample.document Sample.DirectoryRes)
  ∧ @CommonClient_request (Sample2.collaborators_status 503 "503 Service Unavailable")
      Sample.client "<signed/>" []
    = (Fail (ErrorString "idx: HTTP error: 503 Service Unavailable"),
       [EvPost "https://bank.example/ideal" "<signed/>"]).
Proof.
  split.
  - destruct (@CommonClient_request_outcomes
                (Sample.collaborators (Sample.document Sample.DirectoryRes))
                Sample.client "<signed/>" []) as [_ Hposted].
    destruct (Hposted eq_refl) as [_ Hanswer].
    destruct (Hanswer (mkResponse 200 "200 OK" "<answer/>") eq_refl) as [_ Hok].
    rewrite (Hok eq_refl). reflexivity.
  - destruct (@CommonClient_request_outcomes
                (Sample2.collaborators_status 503 "503 Service Unavailable")
                Sample.client "<signed/>" []) as [_ Hposted].
    destruct (Hposted eq_refl) as [Htrace Hanswer].
    destruct (Hanswer (mkResponse 503 "503 Service Unavailable" "<html/>") eq_refl)
      as [Hfail _].
    apply injective_projections; [apply Hfail; discriminate|exact Htrace].
Defined.

(** X8. Both [request] methods pass on what they did not detect as an error
    envelope: an error of the transport is returned as it is, a document
    whose first element is not tagged AcquirerErrorRes is returned as it is,
    and on a document without any element the call panics (index out of
    range); in each case the record of events is that of the transport. *)
Theorem request_passes_on `{Collaborators} (c : CommonClient) (request : string → M Element)
    (msg : string) (tr tr' : list Event) :
  request = IDealClient_request (mkIDealClient c)
  ∨ request = IDINClient_request (mkIDINClient c) →
  (∀ err, CommonClient_request c msg tr = (Fail err, tr') → request msg tr = (Fail err, tr'))
  ∧ (∀ doc root, CommonClient_request c msg tr = (Ok doc, tr') →
       ChildElements doc !! 0 = Some root → Tag root ≠ "AcquirerErrorRes" →
       request msg tr = (Ok doc, tr'))
  ∧ (∀ doc, CommonClient_request c msg tr = (Ok doc, tr') → ChildElements doc = [] →
       request msg tr = (Panic IndexOutOfRange, tr')).
Proof.
  intros Hrequest.
  assert (Hboth : ∀ r,
    (CommonClient_request c msg tr = r →
     IDealClient_request (mkIDealClient c) msg tr
     = match r with
       | (Ok doc, tr1) =>
           (root ← lift (index (ChildElements doc) 0);
            if String.eqb (Tag root) "AcquirerErrorRes"
            then e ← lift (read_AcquirerError doc); lift (Fail (ErrAcquirer e))
            else mret doc) tr1
       | (Fail e, tr1) => (Fail e, tr1)
       | (Panic p, tr1) => (Panic p, tr1)
       end)
    ∧ (CommonClient_request c msg tr = r →
       IDINClient_request (mkIDINClient c) msg tr
       = match r with
         | (Ok doc, tr1) =>
             (root ← lift (index (ChildElements doc) 0);
              if String.eqb (Tag root) "AcquirerErrorRes"
              then e ← lift (read_AcquirerError doc); lift (Fail (ErrAcquirer e))
              else mret doc) tr1
         | (Fail e, tr1) => (Fail e, tr1)
         | (Panic p, tr1) => (Panic p, tr1)
         end)).
  { intros r. split; intros Hr;
      [unfold IDealClient_request|unfold IDINClient_request];
      unfold mbind at 1; unfold M_bind at 1; cbn [IDeal_CommonClient IDIN_CommonClient];
      rewrite Hr; by destruct r as [[]]. }
  assert (Hrun : ∀ r, CommonClient_request c msg tr = r →
    request msg tr
    = match r with
      | (Ok doc, tr1) =>
          (root ← lift (index (ChildElements doc) 0);
           if String.eqb (Tag root) "AcquirerErrorRes"
           then e ← lift (read_AcquirerError doc); lift (Fail (ErrAcquirer e))
           else mret doc) tr1
      | (Fail e, tr1) => (Fail e, tr1)
      | (Panic p, tr1) => (Panic p, tr1)
      end).
  { intros r Hr. destruct (Hboth r) as [Hideal Hidin].
    destruct Hrequest as [-> | ->]; auto. }
  repeat apply conj.
  - intros err Herr. by rewrite (Hrun _ Herr).
  - intros doc root Hdoc Hroot Htag. rewrite (Hrun _ Hdoc).
    erewrite bind_Ok; [|unfold lift, index; by rewrite Hroot].
    by apply String.eqb_neq in Htag as ->.
  - intros doc Hdoc Hempty. rewrite (Hrun _ Hdoc).
    erewrite bind_Panic; [done|]. unfold lift, index. by rewrite Hempty.
Qed.

Lemma request_passes_on_witness :
  @IDealClient_request (Sample.collaborators (Sample.document Sample.DirectoryRes))
    (mkIDealClient Sample.client) "<signed/>" []
  = (Ok (Sample.document Sample.DirectoryRes),
     [EvPost "https://bank.example/ideal" "<signed/>"]).
Proof.
  destruct (@request_passes_on (Sample.collaborators (Sample.document Sample.DirectoryRes))
              Sample.client (IDealClient_request (mkIDealClient Sample.client))
              "<signed/>" [] [EvPost "https://bank.example/ideal" "<signed/>"]
              (or_introl eq_refl)) as (_ & Hdoc & _).
  apply (Hdoc (Sample.document Sample.DirectoryRes) Sample.DirectoryRes).
  - vm_compute. reflexivity.
  - vm_compute. reflexivity.
  - vm_compute. discriminate.
Defined.

(** ** One exchange per call *)

Section AtMost.

Lemma appends_lift {A} (r : result A) : appends_at_most 0 0 (lift r).
Proof. intros tr. exists []. by rewrite app_nil_r. Qed.

Lemma appends_ret {A} (a : A) : appends_at_most 0 0 (mret a : M A).
Proof. intros tr. exists []. by rewrite app_nil_r. Qed.

Lemma appends_weaken {A} p v p' v' (m : M A) :
  appends_at_most p v m → (p ≤ p')%nat → (v ≤ v')%nat → appends_at_most p' v' m.
Proof. intros Hm Hp Hv tr. destruct (Hm tr) as (evs & ? & ? & ?). exists evs. split; [done|split; lia]. Qed.

Lemma appends_bind {A C} p v p' v' (m : M A) (f : A → M C) :
  appends_at_most p v m → (∀ a, appends_at_most p' v' (f a)) →
  appends_at_most (p + p') (v + v') (m ≫= f).
Proof.
  intros Hm Hf tr. destruct (Hm tr) as (evs & Htr & Hp & Hv).
  unfold mbind, M_bind. destruct (m tr) as [[a|e|q] tr1]; cbn in Htr; subst tr1.
  - destruct (Hf a (tr ++ evs)) as (evs' & Htr' & Hp' & Hv').
    exists (evs ++ evs'). rewrite !List.filter_app, !length_app.
    split; [by rewrite Htr', app_assoc|]. split; lia.
  - exists evs. split; [done|split; lia].
  - exists evs. split; [done|split; lia].
Qed.

Lemma appends_forEachM {A S} (body : A → S → M S) (l : list A) (s : S) :
  (∀ x s, appends_at_most 0 0 (body x s)) → appends_at_most 0 0 (forEachM l body s).
Proof.
  intros Hbody. revert s. induction l as [|x l IH]; intros s; [apply appends_ret|].
  cbn. apply (appends_bind 0 0 0 0); [apply Hbody|]. intros s'. apply IH.
Qed.

Context `{Collaborators}.

Lemma appends_CommonClient_request c msg : appends_at_most 1 0 (CommonClient_request c msg).
Proof.
  unfold CommonClient_request.
  destruct (http_NewRequest "POST" (BaseURL c) msg).
  { eapply appends_weaken; [apply appends_lift|lia..]. }
  apply (appends_bind 1 0 0 0).
  { intros tr. exists [EvPost (BaseURL c) msg]. cbn. split; [done|split; lia]. }
  intros _. apply (appends_bind 0 0 0 0); [apply appends_lift|]. intros resp.
  destruct (negb _); apply appends_lift.
Qed.

Lemma appends_request_tail (doc : Element) :
  appends_at_most 0 0
    (root ← lift (index (ChildElements doc) 0);
     if String.eqb (Tag root) "AcquirerErrorRes"
     then e ← lift (read_AcquirerError doc); lift (Fail (ErrAcquirer e))
     else mret doc).
Proof.
  apply (appends_bind 0 0 0 0); [apply appends_lift|]. intros root.
  destruct (String.eqb _ _); [|apply appends_ret].
  apply (appends_bind 0 0 0 0); [apply appends_lift|]. intros e. apply appends_lift.
Qed.

Lemma appends_IDealClient_request (c : IDealClient) msg :
  appends_at_most 1 0 (IDealClient_request c msg).
Proof.
  unfold IDealClient_request. apply (appends_bind 1 0 0 0).
  - apply appends_CommonClient_request.
  - apply appends_request_tail.
Qed.

Lemma appends_IDINClient_request (c : IDINClient) msg :
  appends_at_most 1 0 (IDINClient_request c msg).
Proof.
  unfold IDINClient_request. apply (appends_bind 1 0 0 0).
  - apply appends_CommonClient_request.
  - apply appends_request_tail.
Qed.

Lemma appends_validateMessage c doc : appends_at_most 0 1 (CommonClient_validateMessage c doc).
Proof.
  unfold CommonClient_validateMessage.
  apply (appends_bind 0 0 0 1); [apply appends_lift|]. intros el.
  apply (appends_bind 0 1 0 0); [|intros _; apply appends_lift].
  intros tr. exists [EvValidate el]. cbn. split; [done|split; lia].
Qed.

Lemma appends_IDIN_decryptAttribute c el attributes :
  appends_at_most 0 0 (IDIN_decryptAttribute c el attributes).
Proof.
  unfold IDIN_decryptAttribute.
  apply (appends_bind 0 0 0 0); [apply appends_lift|]. intros key.
  apply (appends_bind 0 0 0 0).
  { intros tr. exists [EvDecrypt el]. cbn. split; [done|split; lia]. }
  intros _. repeat (apply (appends_bind 0 0 0 0); [apply appends_lift|]; intros ?).
  apply appends_ret.
Qed.

End AtMost.

(** X9. Every call of the package that talks to the bank (directory request,
    transaction status and start, in both variants) only appends to the
    record of events, and what it appends holds at most one post and at most
    one validation: a call performs at most one exchange and never repeats
    it. *)
Theorem calls_exchange_at_most_once `{Collaborators} :
  (∀ c, appends_at_most 1 1 (IDealClient_DirectoryRequest c))
  ∧ (∀ c trxid, appends_at_most 1 1 (IDealClient_TransactionStatus c trxid))
  ∧ (∀ t, appends_at_most 1 1 (IDealTransaction_Start t))
  ∧ (∀ c, appends_at_most 1 1 (IDINClient_DirectoryRequest c))
  ∧ (∀ c trxid, appends_at_most 1 1 (IDINClient_TransactionStatus c trxid))
  ∧ (∀ t, appends_at_most 1 1 (IDINTransaction_Start t)).
Proof.
  assert (Hlift := @appends_lift).
  repeat apply conj.
  - intros c. unfold IDealClient_DirectoryRequest.
    do 2 (apply (appends_bind 0 0 1 1); [apply Hlift|]; intros ?).
    apply (appends_bind 1 0 0 1); [apply appends_IDealClient_request|]. intros doc.
    apply (appends_bind 0 1 0 0); [apply appends_validateMessage|]. intros ?. apply Hlift.
  - intros c trxid. unfold IDealClient_TransactionStatus, IDealClient_statusResponse.
    apply (appends_bind 1 1 0 0); [|intros ?; apply Hlift].
    do 2 (apply (appends_bind 0 0 1 1); [apply Hlift|]; intros ?).
    apply (appends_bind 1 0 0 1); [apply appends_IDealClient_request|]. intros doc.
    apply appends_validateMessage.
  - intros t. unfold IDealTransaction_Start.
    apply (appends_bind 0 0 1 1); [apply Hlift|]; intros ?.
    apply (appends_bind 1 0 0 1); [apply appends_IDealClient_request|]. intros doc.
    apply (appends_bind 0 1 0 0); [apply appends_validateMessage|]. intros ?. apply Hlift.
  - intros c. unfold IDINClient_DirectoryRequest.
    do 2 (apply (appends_bind 0 0 1 1); [apply Hlift|]; intros ?).
    apply (appends_bind 1 0 0 1); [apply appends_IDINClient_request|]. intros doc.
    apply (appends_bind 0 1 0 0); [apply appends_validateMessage|]. intros ?. apply Hlift.
  - intros c trxid. unfold IDINClient_TransactionStatus, IDINClient_statusResponse.
    apply (appends_bind 1 1 0 0).
    { do 2 (apply (appends_bind 0 0 1 1); [apply Hlift|]; intros ?).
      apply (appends_bind 1 0 0 1); [apply appends_IDINClient_request|]. intros doc.
      apply appends_validateMessage. }
    intros root. apply (appends_bind 0 0 0 0); [apply Hlift|]. intros idEl.
    destruct (negb _); [apply Hlift|].
    apply (appends_bind 0 0 0 0); [apply Hlift|]. intros statusCodeEl.
    destruct (IDIN_status _) as [status|]; [|apply Hlift].
    destruct (decide (status = Success)); [|apply appends_ret].
    apply (appends_bind 0 0 0 0); [|intros ?; apply appends_ret].
    apply appends_forEachM. intros el attrs. apply appends_IDIN_decryptAttribute.
  - intros t. unfold IDINTransaction_Start.
    apply (appends_bind 0 0 1 1); [apply Hlift|]; intros ?.
    apply (appends_bind 1 0 0 1); [apply appends_IDINClient_request|]. intros doc.
    apply (appends_bind 0 1 0 0); [apply appends_validateMessage|]. intros ?. apply Hlift.
Qed.

(** ** Failures of the signer *)

Lemma FindElementPos_None e path :
  FindElement e path = None → FindElementPos e path = None.
Proof.
  unfold FindElementPos, FindElement, FindElementIn, FindElementsIn.
  destruct (compilePath path) as [q|]; [|done].
  assert (traverse (segments q) [if absolute q then e else e] = traverse (segments q) [e])
    as -> by by destruct (absolute q).
  pose proof (findPos_subtree (segments q) e) as Hs.
  destruct (traverse (segments q) [e]); [|done].
  by destruct (findPos (segments q) e).
Qed.

(** X10. [signMessage] has no error result: an error of the signing library
    is a panic carrying that error; with a signed tree, an empty certificate
    chain is an index panic, and a signed tree without /Signature/KeyInfo a
    nil dereference. *)
Theorem signMessage_panics `{Collaborators} (c : CommonClient) (msg : Element) :
  (∀ err, dsig_SignEnveloped (Certificate c) msg = Fail err →
     CommonClient_signMessage c msg = Panic (PanicError err))
  ∧ (∀ signed, dsig_SignEnveloped (Certificate c) msg = Ok signed →
       (Certificate_chain (Certificate c) = [] →
          CommonClient_signMessage c msg = Panic IndexOutOfRange)
       ∧ (Certificate_chain (Certificate c) ≠ [] →
          FindElement signed "/Signature/KeyInfo" = None →
          CommonClient_signMessage c msg = Panic NilDereference))
  ∧ (∀ out, CommonClient_signMessage c msg ≠ Fail out).
Proof.
  unfold CommonClient_signMessage. repeat apply conj.
  - by intros err ->.
  - intros signed ->. split.
    + by intros ->.
    + intros Hchain Hnone%FindElementPos_None.
      destruct (Certificate_chain (Certificate c)) as [|leaf chain]; [done|].
      cbn. by rewrite Hnone.
  - intros out. destruct (dsig_SignEnveloped (Certificate c) msg) as [signed| |]; [|done..].
    unfold index. destruct (Certificate_chain (Certificate c) !! 0) as [leaf|]; [|done].
    cbn [mbind result_mbind result_bind].
    destruct (FindElementPos signed "/Signature/KeyInfo") as [p|]; [|done].
    cbn.
    match goal with
    | |- context [etree_WriteToString ?d] => by destruct (etree_WriteToString d)
    end.
Qed.

Lemma signMessage_panics_witness :
  let W := Sample2.collaborators_unsigned in
  @CommonClient_signMessage W Sample.client Sample.DirectoryRes
  = Panic (PanicError (ErrExternal FromSigner "dsig: no key")).
Proof.
  intros W. destruct (@signMessage_panics W Sample.client Sample.DirectoryRes) as [Hfail _].
  by apply Hfail.
Defined.

(** X11. When signing panics, nothing is sent: each call of the package that
    talks to the bank ends in that panic with the record of events left as
    it was. *)
Theorem signing_panic_sends_nothing `{Collaborators} (c : CommonClient) (p : panic)
    (tr : list Event) :
  (∀ msg, CommonClient_signMessage c msg = Panic p) →
  IDealClient_DirectoryRequest (mkIDealClient c) tr = (Panic p, tr)
  ∧ (∀ trxid, IDealClient_TransactionStatus (mkIDealClient c) trxid tr = (Panic p, tr))
  ∧ (∀ t, IDeal_client t = mkIDealClient c → IDealTransaction_Start t tr = (Panic p, tr))
  ∧ IDINClient_DirectoryRequest (mkIDINClient c) tr = (Panic p, tr)
  ∧ (∀ trxid, IDINClient_TransactionStatus (mkIDINClient c) trxid tr = (Panic p, tr))
  ∧ (∀ t, IDIN_client t = mkIDINClient c → IDINTransaction_Start t tr = (Panic p, tr)).
Proof.
  intros Hsign.
  assert (Hstep : ∀ C msg (k : string → M C),
    (signed ← lift (CommonClient_signMessage c msg); k signed) tr = (Panic p, tr)).
  { intros C msg k. apply bind_Panic. unfold lift. by rewrite Hsign. }
  repeat apply conj.
  - unfold IDealClient_DirectoryRequest.
    erewrite lift_bind_Ok by (vm_compute; reflexivity). apply Hstep.
  - intros trxid. unfold IDealClient_TransactionStatus, IDealClient_statusResponse.
    apply bind_Panic. erewrite lift_bind_Ok by (vm_compute; reflexivity). apply Hstep.
  - intros t Ht. unfold IDealTransaction_Start. rewrite Ht. apply Hstep.
  - unfold IDINClient_DirectoryRequest.
    erewrite lift_bind_Ok by (vm_compute; reflexivity). apply Hstep.
  - intros trxid. unfold IDINClient_TransactionStatus, IDINClient_statusResponse.
    apply bind_Panic. erewrite lift_bind_Ok by (vm_compute; reflexivity). apply Hstep.
  - intros t Ht. unfold IDINTransaction_Start. rewrite Ht. apply Hstep.
Qed.

Lemma signing_panic_sends_nothing_witness :
  let W := Sample2.collaborators_unsigned in
  @IDealClient_DirectoryRequest W (mkIDealClient Sample.client) []
  = (Panic (PanicError (ErrExternal FromSigner "dsig: no key")), []).
Proof.
  intros W.
  destruct (@signing_panic_sends_nothing W Sample.client
              (PanicError (ErrExternal FromSigner "dsig: no key")) []) as [Hcall _];
    [|exact Hcall].
  intros msg. reflexivity.
Defined.

(** ** Starting a transaction *)

(** X12. [Start], in both variants: when the signed message was sent and
    the answer validated, the transaction gets its redirect URL from
    /Issuer/issuerAuthenticationURL and its identifier from
    /Transaction/transactionID of the validated answer, and keeps its client
    and message; when either element is missing the call panics (nil
    dereference) and returns no transaction. *)
Theorem Start_outcomes `{Collaborators} (tr tr' : list Event) (response : Element) :
  (∀ t : IDealTransaction,
     (signed ← lift (CommonClient_signMessage (IDeal_client t) (IDeal_msg t));
      doc ← IDealClient_request (IDeal_client t) signed;
      CommonClient_validateMessage (IDeal_client t) doc) tr = (Ok response, tr') →
     (∀ urlEl idEl,
        FindElement response "/Issuer/issuerAuthenticationURL" = Some urlEl →
        FindElement response "/Transaction/transactionID" = Some idEl →
        IDealTransaction_Start t tr
        = (Ok (mkIDealTransaction (IDeal_client t) (IDeal_msg t) (Text urlEl) (Text idEl)), tr'))
     ∧ (FindElement response "/Issuer/issuerAuthenticationURL" = None
        ∨ FindElement response "/Transaction/transactionID" = None →
        IDealTransaction_Start t tr = (Panic NilDereference, tr')))
  ∧ (∀ t : IDINTransaction,
       (signed ← lift (CommonClient_signMessage (IDIN_client t) (IDIN_msg t));
        doc ← IDINClient_request (IDIN_client t) signed;
        CommonClient_validateMessage (IDIN_client t) doc) tr = (Ok response, tr') →
       (∀ urlEl idEl,
          FindElement response "/Issuer/issuerAuthenticationURL" = Some urlEl →
          FindElement response "/Transaction/transactionID" = Some idEl →
          IDINTransaction_Start t tr
          = (Ok (mkIDINTransaction (IDIN_client t) (IDIN_msg t) (Text urlEl) (Text idEl)), tr'))
       ∧ (FindElement response "/Issuer/issuerAuthenticationURL" = None
          ∨ FindElement response "/Transaction/transactionID" = None →
          IDINTransaction_Start t tr = (Panic NilDereference, tr'))).
Proof.
  split; intros t Hexchange.
  - assert (Hrun : IDealTransaction_Start t tr
      = (urlEl ← deref (FindElement response "/Issuer/issuerAuthenticationURL");
         idEl ← deref (FindElement response "/Transaction/transactionID");
         Ok (mkIDealTransaction (IDeal_client t) (IDeal_msg t) (Text urlEl) (Text idEl)), tr')).
    { unfold IDealTransaction_Start. revert Hexchange. unfold mbind, M_bind, lift.
      destruct (CommonClient_signMessage _ _) as [signed| |]; [|done..].
      destruct (IDealClient_request _ signed tr) as [[doc| |] tr1]; [|done..].
      by intros ->. }
    rewrite Hrun. split.
    + by intros urlEl idEl -> ->.
    + intros [-> | ->]; [done|].
      by destruct (FindElement response "/Issuer/issuerAuthenticationURL").
  - assert (Hrun : IDINTransaction_Start t tr
      = (urlEl ← deref (FindElement response "/Issuer/issuerAuthenticationURL");
         idEl ← deref (FindElement response "/Transaction/transactionID");
         Ok (mkIDINTransaction (IDIN_client t) (IDIN_msg t) (Text urlEl) (Text idEl)), tr')).
    { unfold IDINTransaction_Start. revert Hexchange. unfold mbind, M_bind, lift.
      destruct (CommonClient_signMessage _ _) as [signed| |]; [|done..].
      destruct (IDINClient_request _ signed tr) as [[doc| |] tr1]; [|done..].
      by intros ->. }
    rewrite Hrun. split.
    + by intros urlEl idEl -> ->.
    + intros [-> | ->]; [done|].
      by destruct (FindElement response "/Issuer/issuerAuthenticationURL").
Qed.

Lemma Start_outcomes_witness :
  let W := Sample.collaborators (Sample.document Sample2.AcquirerTrxRes) in
  @IDealTransaction_Start W Sample2.transaction []
  = (Ok (mkIDealTransaction (mkIDealClient Sample.client) (Sample.el "AcquirerTrxReq" [])
           "https://bank.example/auth?trx=0050000012345678" "0050000012345678"),
     Sample.trace Sample2.AcquirerTrxRes).
Proof.
  intros W.
  destruct (@Start_outcomes W [] (Sample.trace Sample2.AcquirerTrxRes) Sample2.AcquirerTrxRes)
    as [Hideal _].
  destruct (Hideal Sample2.transaction) as [Hok _]; [vm_compute; reflexivity|].
  apply (Hok (Sample.el "issuerAuthenticationURL"
                [TCharData "https://bank.example/auth?trx=0050000012345678"])
             (Sample.el "transactionID" [TCharData "0050000012345678"]));
    vm_compute; reflexivity.
Defined.

(** ** The directory *)

Lemma Issuers_append_times_closed (n : nat) (d : Directory) (k : string) (x : Issuer) :
  Issuers_append_times (S n) d k x
  = mkDirectory (<[k := default [] (Issuers d !! k) ++ replicate (S n) x]> (Issuers d)).
Proof.
  revert d. induction n as [|n IH]; intros d; [done|].
  change (Issuers_append_times (S (S n)) d k x)
    with (Issuers_append_times (S n) (Issuers_append d k x) k x).
  rewrite IH. unfold Issuers_append. cbn [Issuers].
  rewrite lookup_insert_eq, insert_insert_eq. cbn [default id].
  by rewrite <- app_assoc.
Qed.

Lemma Issuers_append_times_add (n m : nat) (d : Directory) (k : string) (x : Issuer) :
  Issuers_append_times n (Issuers_append_times m d k x) k x = Issuers_append_times (m + n) d k x.
Proof. revert d. induction m as [|m IH]; intros d; [done|]. cbn. apply IH. Qed.

Lemma forEach_Issuers_append {A} (l : list A) (d : Directory) (k : string) (x : Issuer) :
  forEach l (λ _ directory, Ok (Issuers_append directory k x)) d
  = Ok (Issuers_append_times (List.length l) d k x).
Proof. revert d. induction l as [|a l IH]; intros d; [done|]. cbn. apply IH. Qed.

Lemma forEach_Issuers_append_times {A} (l : list A) (m : nat) (d : Directory) (k : string)
    (x : Issuer) :
  forEach l (λ _ directory, Ok (Issuers_append_times m directory k x)) d
  = Ok (Issuers_append_times (List.length l * m) d k x).
Proof.
  revert d. induction l as [|a l IH]; intros d; [done|].
  cbn [forEach List.length]. unfold mbind, result_mbind. cbn [result_bind].
  by rewrite IH, Issuers_append_times_add.
Qed.

Lemma forEach_ext {A S} (l : list A) (f g : A → S → result S) (s : S) :
  (∀ x s, f x s = g x s) → forEach l f s = forEach l g s.
Proof.
  intros Hfg. revert s. induction l as [|x l IH]; intros s; [done|].
  cbn [forEach]. rewrite Hfg. unfold mbind, result_mbind. destruct (g x s); cbn [result_bind]; [apply IH|done|done].
Qed.

Lemma FindElementIn_absolute (root e : Element) (tags : string) :
  FindElementIn root e (String "/"%char tags) = FindElement root (String "/"%char tags).
Proof.
  unfold FindElement, FindElementIn. f_equal. apply absolute_path_ignores_receiver.
Qed.

(** X13. What [parseDirectoryRequest] returns, for every validated answer.
    With no Country element the directory is empty.  Otherwise the first
    countryNames element of the answer must exist (else the call panics), and
    with no Issuer element the directory is again empty; with Issuer
    elements the first issuerID and issuerName of the answer must exist, and
    the directory has the single key of the first country name, holding as
    many copies of the first issuer as there are countries times issuers in
    the whole answer. *)
Theorem parseDirectoryRequest_outcomes (c : CommonClient) (msg : Element) :
  let countries := FindElements msg "/Directory/Country" in
  let issuers := FindElements msg "/Directory/Country/Issuer" in
  (countries = [] → CommonClient_parseDirectoryRequest c msg = Ok (mkDirectory ∅))
  ∧ (countries ≠ [] → FindElement msg "/Directory/Country/countryNames" = None →
     CommonClient_parseDirectoryRequest c msg = Panic NilDereference)
  ∧ (∀ countryNames, FindElement msg "/Directory/Country/countryNames" = Some countryNames →
       (issuers = [] → CommonClient_parseDirectoryRequest c msg = Ok (mkDirectory ∅))
       ∧ (countries ≠ [] → issuers ≠ [] →
          FindElement msg "/Directory/Country/Issuer/issuerID" = None
          ∨ FindElement msg "/Directory/Country/Issuer/issuerName" = None →
          CommonClient_parseDirectoryRequest c msg = Panic NilDereference)
       ∧ (∀ issuerID issuerName,
            countries ≠ [] → issuers ≠ [] →
            FindElement msg "/Directory/Country/Issuer/issuerID" = Some issuerID →
            FindElement msg "/Directory/Country/Issuer/issuerName" = Some issuerName →
            CommonClient_parseDirectoryRequest c msg
            = Ok (mkDirectory
                    {[ Text countryNames :=
                         replicate (List.length countries * List.length issuers)
                           (mkIssuer (Text issuerID) (Text issuerName)) ]}))).
Proof.
  intros countries issuers.
  assert (Hrun : CommonClient_parseDirectoryRequest c msg
    = forEach countries (λ _ directory,
        countryNames ← deref (FindElement msg "/Directory/Country/countryNames");
        forEach issuers (λ _ directory,
          idEl ← deref (FindElement msg "/Directory/Country/Issuer/issuerID");
          nameEl ← deref (FindElement msg "/Directory/Country/Issuer/issuerName");
          Ok (Issuers_append directory (Text countryNames) (mkIssuer (Text idEl) (Text nameEl))))
          directory) (mkDirectory ∅)).
  { unfold CommonClient_parseDirectoryRequest. fold countries.
    assert (Hissuers : ∀ e, FindElementsIn msg e "/Directory/Country/Issuer" = issuers)
      by (intros e; apply absolute_path_ignores_receiver).
    apply forEach_ext. intros countryEl directory.
    rewrite FindElementIn_absolute, Hissuers.
    destruct (FindElement msg "/Directory/Country/countryNames") as [countryNames|]; [|done].
    cbn [deref mbind result_mbind result_bind].
    apply forEach_ext. intros issuerEl directory'.
    by rewrite !FindElementIn_absolute. }
  rewrite Hrun. clear Hrun. repeat apply conj.
  - by intros ->.
  - intros Hcountries ->. by destruct countries.
  - intros countryNames ->. cbn [deref mbind result_mbind result_bind]. repeat apply conj.
    + intros ->. cbn [forEach]. by induction countries.
    + intros Hcountries Hissuers Hnone.
      destruct countries as [|country countries']; [done|].
      destruct issuers as [|issuer issuers']; [done|]. cbn [forEach].
      by destruct Hnone as [-> | ->];
        [|destruct (FindElement msg "/Directory/Country/Issuer/issuerID")].
    + intros issuerID issuerName Hcountries Hissuers -> ->.
      cbn [deref mbind result_mbind result_bind].
      rewrite (forEach_ext countries _
                 (λ _ directory, Ok (Issuers_append_times (List.length issuers) directory
                                       (Text countryNames)
                                       (mkIssuer (Text issuerID) (Text issuerName)))))
        by (intros _ d; apply forEach_Issuers_append).
      rewrite forEach_Issuers_append_times.
      destruct countries as [|country countries']; [done|].
      destruct issuers as [|issuer issuers']; [done|].
      cbn [List.length Nat.mul Nat.add]. by rewrite Issuers_append_times_closed.
Qed.

Lemma parseDirectoryRequest_outcomes_witness :
  CommonClient_parseDirectoryRequest Sample.client Sample2.DirectoryRes_one
  = Ok (mkDirectory {[ "Nederland" := [mkIssuer "INGBNL2A" "ING"] ]}).
Proof.
  destruct (parseDirectoryRequest_outcomes Sample.client Sample2.DirectoryRes_one)
    as (_ & _ & Hnamed).
  destruct (Hnamed (Sample.el "countryNames" [TCharData "Nederland"]))
    as (_ & _ & Hissuers); [vm_compute; reflexivity|].
  apply (Hissuers (Sample.el "issuerID" [TCharData "INGBNL2A"])
                  (Sample.el "issuerName" [TCharData "ING"]));
    (vm_compute; reflexivity) || (vm_compute; discriminate).
Defined.

(** X14. [DirectoryRequest], in both variants: once the DirectoryReq message
    is signed and a document other than an error envelope received, the
    first element of the document is validated against the acquirer
    certificate; an error of the validation is returned as it is, and a
    validated tree is handed to [parseDirectoryRequest], whose result is the
    result of the call. *)
Theorem DirectoryRequest_outcomes `{Collaborators} (c : CommonClient) (msg : Element)
    (signed : string) (tr tr' : list Event) (doc root : Element) :
  CommonClient_signMessage c msg = Ok signed →
  ChildElements doc !! 0 = Some root →
  (Build.run (IDealClient_createMessage (mkIDealClient c) "DirectoryReq") = Ok msg →
   IDealClient_request (mkIDealClient c) signed tr = (Ok doc, tr') →
   IDealClient_DirectoryRequest (mkIDealClient c) tr
   = (result_bind (CommonClient_parseDirectoryRequest c) (dsig_Validate (AcquirerCert c) root),
      tr' ++ [EvValidate root]))
  ∧ (Build.run (IDINClient_createMessage (mkIDINClient c) "DirectoryReq") = Ok msg →
     IDINClient_request (mkIDINClient c) signed tr = (Ok doc, tr') →
     IDINClient_DirectoryRequest (mkIDINClient c) tr
     = (result_bind (CommonClient_parseDirectoryRequest c) (dsig_Validate (AcquirerCert c) root),
        tr' ++ [EvValidate root])).
Proof.
  intros Hsign Hroot.
  assert (Hvalidate : ∀ C (k : Element → result C),
    (response ← CommonClient_validateMessage c doc; lift (k response)) tr'
    = (result_bind k (dsig_Validate (AcquirerCert c) root), tr' ++ [EvValidate root])).
  { intros C k. unfold CommonClient_validateMessage, mbind, M_bind, lift, emit, index.
    rewrite Hroot. by destruct (dsig_Validate (AcquirerCert c) root). }
  split; intros Hmsg Hrequest.
  - unfold IDealClient_DirectoryRequest.
    rewrite (lift_bind_Ok _ _ msg) by done. cbn [IDeal_CommonClient].
    rewrite (lift_bind_Ok _ _ signed) by done.
    rewrite (bind_Ok _ _ _ _ _ Hrequest). apply Hvalidate.
  - unfold IDINClient_DirectoryRequest.
    rewrite (lift_bind_Ok _ _ msg) by done. cbn [IDIN_CommonClient].
    rewrite (lift_bind_Ok _ _ signed) by done.
    rewrite (bind_Ok _ _ _ _ _ Hrequest). apply Hvalidate.
Qed.

Lemma DirectoryRequest_outcomes_witness :
  let W := Sample.collaborators (Sample.document Sample2.DirectoryRes_one) in
  @IDealClient_DirectoryRequest W (mkIDealClient Sample.client) []
  = (Ok (mkDirectory {[ "Nederland" := [mkIssuer "INGBNL2A" "ING"] ]}),
     Sample.trace Sample2.DirectoryRes_one).
Proof.
  intros W.
  destruct (@DirectoryRequest_outcomes W Sample.client
              (mkElement EmptyString "DirectoryReq"
                 [mkAttr EmptyString "xmlns" "http://www.idealdesk.com/ideal/messages/mer-acq/3.3.1";
                  mkAttr EmptyString "version" "3.3.1"]
                 [Sample.leaf "createDateTimestamp" "2026-10-30T12:00:00Z";
                  TElement (Sample.el "Merchant"
                    [Sample.leaf "merchantID" "002020000"; Sample.leaf "subID" "0"])])
              (xml_Header +:+ "<signed/>") []
              [EvPost "https://bank.example/ideal" (xml_Header +:+ "<signed/>")]
              (Sample.document Sample2.DirectoryRes_one) Sample2.DirectoryRes_one)
    as [Hideal _]; [vm_compute; reflexivity..|].
  rewrite Hideal; vm_compute; reflexivity.
Defined.

(** ** The status request *)

(** X18. The message a status call signs and sends, in both variants, is an
    AcquirerStatusReq holding the creation timestamp, the Merchant block and
    a Transaction block whose only transactionID has the identifier asked
    for as its text, also when that identifier is empty. *)
Theorem status_request_names_transaction `{Collaborators} (c : CommonClient) (trxid : string) :
  (∃ msg,
     (∀ tr, IDealClient_statusResponse (mkIDealClient c) trxid tr
            = (signed ← lift (CommonClient_signMessage c msg);
               doc ← IDealClient_request (mkIDealClient c) signed;
               CommonClient_validateMessage c doc) tr)
     ∧ Tag msg = "AcquirerStatusReq"
     ∧ Tag <$> ChildElements msg = ["createDateTimestamp"; "Merchant"; "Transaction"]
     ∧ Text <$> FindElements msg "/Transaction/transactionID" = [trxid]
     ∧ SelectAttrValue msg "version" EmptyString = "3.3.1")
  ∧ (∃ msg,
       (∀ tr, IDINClient_statusResponse (mkIDINClient c) trxid tr
              = (signed ← lift (CommonClient_signMessage c msg);
                 doc ← IDINClient_request (mkIDINClient c) signed;
                 CommonClient_validateMessage c doc) tr)
       ∧ Tag msg = "AcquirerStatusReq"
       ∧ Tag <$> ChildElements msg = ["createDateTimestamp"; "Merchant"; "Transaction"]
       ∧ Text <$> FindElements msg "/Transaction/transactionID" = [trxid]
       ∧ SelectAttrValue msg "version" EmptyString = "1.0.0").
Proof.
  split.
  - eexists. split.
    + intros tr. unfold IDealClient_statusResponse.
      erewrite lift_bind_Ok by (vm_compute; reflexivity). reflexivity.
    + by vm_compute.
  - eexists. split.
    + intros tr. unfold IDINClient_statusResponse.
      erewrite lift_bind_Ok by (vm_compute; reflexivity). reflexivity.
    + by vm_compute.
Qed.

(** ** Failures handed to the caller *)

(** X19. When signing succeeds and [request] fails (an error of the
    transport, or the [AcquirerError] of an error envelope), that error is
    the outcome of the call, in each call of the package that talks to the
    bank. *)
Theorem request_failure_is_returned `{Collaborators} (c : CommonClient) (e : error)
    (tr : list Event) :
  (∀ msg, ∃ signed, CommonClient_signMessage c msg = Ok signed) →
  ((∀ signed, (IDealClient_request (mkIDealClient c) signed tr).1 = Fail e) →
   (IDealClient_DirectoryRequest (mkIDealClient c) tr).1 = Fail e
   ∧ (∀ trxid, (IDealClient_TransactionStatus (mkIDealClient c) trxid tr).1 = Fail e)
   ∧ (∀ t, IDeal_client t = mkIDealClient c → (IDealTransaction_Start t tr).1 = Fail e))
  ∧ ((∀ signed, (IDINClient_request (mkIDINClient c) signed tr).1 = Fail e) →
     (IDINClient_DirectoryRequest (mkIDINClient c) tr).1 = Fail e
     ∧ (∀ trxid, (IDINClient_TransactionStatus (mkIDINClient c) trxid tr).1 = Fail e)
     ∧ (∀ t, IDIN_client t = mkIDINClient c → (IDINTransaction_Start t tr).1 = Fail e)).
Proof.
  intros Hsign.
  assert (Hstep : ∀ C (request : string → M Element) msg (k : Element → M C),
    (∀ signed, (request signed tr).1 = Fail e) →
    ((signed ← lift (CommonClient_signMessage c msg); doc ← request signed; k doc) tr).1
    = Fail e).
  { intros C request msg k Hrequest. destruct (Hsign msg) as [signed Hsigned].
    rewrite (lift_bind_Ok _ _ signed) by done. specialize (Hrequest signed).
    unfold mbind, M_bind. by destruct (request signed tr) as [[] ?]; simplify_eq/=. }
  assert (Hbind : ∀ A C (m : M A) (k : A → M C), (m tr).1 = Fail e → ((m ≫= k) tr).1 = Fail e).
  { intros A C m k Hm. unfold mbind, M_bind. by destruct (m tr) as [[] ?]; simplify_eq/=. }
  split; intros Hrequest; repeat apply conj.
  - unfold IDealClient_DirectoryRequest.
    erewrite lift_bind_Ok by (vm_compute; reflexivity). by apply Hstep.
  - intros trxid. unfold IDealClient_TransactionStatus, IDealClient_statusResponse.
    apply Hbind. erewrite lift_bind_Ok by (vm_compute; reflexivity). by apply Hstep.
  - intros t Ht. unfold IDealTransaction_Start. rewrite Ht. by apply Hstep.
  - unfold IDINClient_DirectoryRequest.
    erewrite lift_bind_Ok by (vm_compute; reflexivity). by apply Hstep.
  - intros trxid. unfold IDINClient_TransactionStatus, IDINClient_statusResponse.
    apply Hbind. erewrite lift_bind_Ok by (vm_compute; reflexivity). by apply Hstep.
  - intros t Ht. unfold IDINTransaction_Start. rewrite Ht. by apply Hstep.
Qed.

Lemma request_failure_is_returned_witness :
  (@IDealClient_TransactionStatus
     (Sample2.collaborators_fixed (Sample.document Sample.AcquirerErrorRes))
     (mkIDealClient Sample.client) "TX1" []).1
  = Fail (ErrAcquirer (mkAcquirerError "SO1000" "System error" "..." "Something went wrong")).
Proof.
  destruct (@request_failure_is_returned
              (Sample2.collaborators_fixed (Sample.document Sample.AcquirerErrorRes))
              Sample.client
              (ErrAcquirer (mkAcquirerError "SO1000" "System error" "..." "Something went wrong"))
              []) as [Hideal _].
  - intros msg. eexists. vm_compute. reflexivity.
  - destruct Hideal as (_ & Hstatus & _); [|apply Hstatus].
    intros signed. vm_compute. reflexivity.
Defined.

(** X20. The payment-variant status call panics (nil dereference), with no
    result, on a validated response that lacks the transactionID, or echoes
    the identifier asked for but lacks the status, or has the status Success
    but lacks one of the five payload elements. *)
Theorem IDeal_TransactionStatus_missing_element `{Collaborators} (c : IDealClient)
    (trxid : string) (tr tr' : list Event) (response : Element) :
  IDealClient_statusResponse c trxid tr = (Ok response, tr') →
  (FindElement response "/Transaction/transactionID" = None →
   IDealClient_TransactionStatus c trxid tr = (Panic NilDereference, tr'))
  ∧ (∀ idEl, FindElement response "/Transaction/transactionID" = Some idEl →
       Text idEl = trxid →
       (FindElement response "/Transaction/status" = None →
        IDealClient_TransactionStatus c trxid tr = (Panic NilDereference, tr'))
       ∧ (∀ statusEl, FindElement response "/Transaction/status" = Some statusEl →
            Text statusEl = "Success" →
            FindElement response "/Transaction/consumerName" = None
            ∨ FindElement response "/Transaction/consumerIBAN" = None
            ∨ FindElement response "/Transaction/consumerBIC" = None
            ∨ FindElement response "/Transaction/amount" = None
            ∨ FindElement response "/Transaction/currency" = None →
            IDealClient_TransactionStatus c trxid tr = (Panic NilDereference, tr'))).
Proof.
  intros Hresponse.
  unfold IDealClient_TransactionStatus. rewrite (bind_Ok _ _ _ _ _ Hresponse).
  unfold lift. split.
  - by intros ->.
  - intros idEl -> <-. cbn [deref mbind result_mbind result_bind]. rewrite eqb_eq_negb.
    split.
    + by intros ->.
    + intros statusEl -> Hsuccess Hmissing. cbn [deref mbind result_mbind result_bind].
      cbv beta iota zeta. rewrite Hsuccess.
      change (IDeal_status "Success") with Success.
      rewrite decide_False by done. rewrite decide_True by done.
      destruct Hmissing as [-> | [Hm | [Hm | [Hm | Hm]]]]; [done|..]; rewrite Hm;
        repeat match goal with
               | |- context [deref (FindElement response ?p)] =>
                   destruct (FindElement response p)
               end; done.
Qed.

Lemma IDeal_TransactionStatus_missing_element_witness :
  let answer := Sample.el "AcquirerStatusRes" [TElement (Sample.el "Transaction" [])] in
  @IDealClient_TransactionStatus (Sample.collaborators (Sample.document answer))
    (mkIDealClient Sample.client) "TX1" []
  = (Panic NilDereference, Sample.trace answer).
Proof.
  intros answer.
  destruct (@IDeal_TransactionStatus_missing_element
              (Sample.collaborators (Sample.document answer))
              (mkIDealClient Sample.client) "TX1" [] (Sample.trace answer) answer)
    as [Hmissing _]; [vm_compute; reflexivity|].
  apply Hmissing. vm_compute. reflexivity.
Defined.

(** ** Status calls on the validated answer *)

(** An absolute path whose first step names a tag that no child of the top
    carries finds nothing. *)
Lemma FindElements_absolute_no_child (root : Element) (path : string) seg rest :
  compilePath path = Some (mkPath true (seg :: rest)) →
  Forall (λ child, Tag child ≠ seg.2) (ChildElements root) →
  FindElements root path = [].
Proof.
  intros Hpath Hnone. unfold FindElements, FindElementsIn. rewrite Hpath.
  cbn [segments absolute traverse].
  assert (Hsel : selectChildrenByTag seg root = []).
  { unfold selectChildrenByTag. induction Hnone as [|child l Hchild _ IH]; [done|].
    cbn [List.filter]. unfold tagMatch at 1.
    destruct (String.eqb_spec seg.2 (Tag child)) as [Heq|_]; [by destruct Hchild|].
    by rewrite andb_false_r. }
  change ([root] ≫= selectChildrenByTag seg) with (selectChildrenByTag seg root ++ []).
  rewrite Hsel. apply traverse_nil.
Qed.

(** X21. The identity-variant status call on a validated tree none of whose
    child elements is tagged AcquirerStatusRes, as is the tree validation
    returns for the AcquirerStatusRes element of an answer: the first lookup,
    /AcquirerStatusRes/Transaction/transactionID, finds nothing, and the call
    panics on the nil element, whatever identifier, status and attributes the
    answer holds.  Nothing is recorded after the validation: no decryption is
    asked for.  This is the general form of what C3, C6 and C9 show. *)
Theorem IDIN_TransactionStatus_detached `{Collaborators} (c : IDINClient) (trxid : string)
    (tr tr' : list Event) (root : Element) :
  IDINClient_statusResponse c trxid tr = (Ok root, tr') →
  Forall (λ child, Tag child ≠ "AcquirerStatusRes") (ChildElements root) →
  IDINClient_TransactionStatus c trxid tr = (Panic NilDereference, tr').
Proof.
  intros Hresponse Hnone.
  unfold IDINClient_TransactionStatus. rewrite (bind_Ok _ _ _ _ _ Hresponse).
  change (FindElement root "/AcquirerStatusRes/Transaction/transactionID")
    with (head (FindElements root "/AcquirerStatusRes/Transaction/transactionID")).
  rewrite (FindElements_absolute_no_child root "/AcquirerStatusRes/Transaction/transactionID"
             (EmptyString, "AcquirerStatusRes")
             [(EmptyString, "Transaction"); (EmptyString, "transactionID")]);
    [reflexivity|reflexivity|exact Hnone].
Qed.

Lemma IDIN_TransactionStatus_detached_witness :
  let answer := Sample.IDIN_StatusRes "TX1" Sample.Success_URI [Sample.EncryptedAttribute "good"] in
  @IDINClient_TransactionStatus (Sample.collaborators (Sample.document answer))
    (mkIDINClient Sample.client) "TX1" []
  = (Panic NilDereference, Sample.trace answer).
Proof.
  intros answer.
  apply (@IDIN_TransactionStatus_detached (Sample.collaborators (Sample.document answer))
           (mkIDINClient Sample.client) "TX1" [] (Sample.trace answer) answer).
  - vm_compute. reflexivity.
  - repeat (apply List.Forall_cons; [discriminate|]). apply List.Forall_nil.
Defined.

(** X22. The payment-variant status call compares the identifier the
    validated answer echoes with the one asked for before it reads anything
    else: when they differ the call returns the error "idx: returned
    transaction ID does not match", whatever status and payload the answer
    holds, and records nothing after the validation. *)
Theorem IDeal_TransactionStatus_id_mismatch `{Collaborators} (c : IDealClient)
    (trxid : string) (tr tr' : list Event) (response idEl : Element) :
  IDealClient_statusResponse c trxid tr = (Ok response, tr') →
  FindElement response "/Transaction/transactionID" = Some idEl →
  Text idEl ≠ trxid →
  IDealClient_TransactionStatus c trxid tr
  = (Fail (ErrorString "idx: returned transaction ID does not match"), tr').
Proof.
  intros Hresponse Hid Hne.
  unfold IDealClient_TransactionStatus. rewrite (bind_Ok _ _ _ _ _ Hresponse).
  unfold lift. rewrite Hid. cbn [deref mbind result_mbind result_bind].
  by rewrite (eqb_neq_negb _ _ Hne).
Qed.

Lemma IDeal_TransactionStatus_id_mismatch_witness :
  let answer := Sample.IDeal_StatusRes "TX2" "Success" in
  @IDealClient_TransactionStatus (Sample.collaborators (Sample.document answer))
    (mkIDealClient Sample.client) "TX1" []
  = (Fail (ErrorString "idx: returned transaction ID does not match"), Sample.trace answer).
Proof.
  intros answer.
  apply (@IDeal_TransactionStatus_id_mismatch (Sample.collaborators (Sample.document answer))
           (mkIDealClient Sample.client) "TX1" [] (Sample.trace answer) answer
           (Sample.el "transactionID" [TCharData "TX2"])).
  - vm_compute. reflexivity.
  - vm_compute. reflexivity.
  - vm_compute. discriminate.
Defined.

(** X23. The payment-variant status call never turns a status text outside
    Success, Cancelled, Expired, Failure, Open into a result; when the
    echoed identifier is the one asked for, what it returns is the error
    "ideal: invalid status: " followed by the text read. *)
Theorem IDeal_TransactionStatus_invalid_status `{Collaborators} (c : IDealClient)
    (trxid : string) (tr tr' : list Event) (response statusEl : Element) :
  IDealClient_statusResponse c trxid tr = (Ok response, tr') →
  FindElement response "/Transaction/status" = Some statusEl →
  Text statusEl ∉ IDeal_statuses →
  (∀ r, (IDealClient_TransactionStatus c trxid tr).1 ≠ Ok r)
  ∧ (∀ idEl,
       FindElement response "/Transaction/transactionID" = Some idEl →
       Text idEl = trxid →
       IDealClient_TransactionStatus c trxid tr
       = (Fail (ErrorString ("ideal: invalid status: " +:+ Text statusEl)), tr')).
Proof.
  intros Hresponse Hstatus Hinvalid.
  apply IDeal_status_invalid in Hinvalid.
  unfold IDealClient_TransactionStatus. rewrite (bind_Ok _ _ _ _ _ Hresponse).
  unfold lift. rewrite Hstatus. cbn [fst deref mbind result_mbind result_bind].
  split.
  - intros r. destruct (FindElement response "/Transaction/transactionID"); [|done].
    cbn [fst deref mbind result_mbind result_bind]. destruct (negb _); [done|].
    rewrite Hinvalid. by rewrite decide_True by done.
  - intros idEl -> <-. cbn [fst deref mbind result_mbind result_bind].
    rewrite eqb_eq_negb, Hinvalid. by rewrite decide_True by done.
Qed.

Lemma IDeal_TransactionStatus_invalid_status_witness :
  let answer := Sample.IDeal_StatusRes "TX1" "Pending" in
  @IDealClient_TransactionStatus (Sample.collaborators (Sample.document answer))
    (mkIDealClient Sample.client) "TX1" []
  = (Fail (ErrorString "ideal: invalid status: Pending"), Sample.trace answer).
Proof.
  intros answer.
  destruct (@IDeal_TransactionStatus_invalid_status
              (Sample.collaborators (Sample.document answer))
              (mkIDealClient Sample.client) "TX1" [] (Sample.trace answer) answer
              (Sample.el "status" [TCharData "Pending"]))
    as [_ Herr]; [vm_compute; reflexivity..|not_in_list|].
  rewrite (Herr (Sample.el "transactionID" [TCharData "TX1"])); [done|..];
    vm_compute; reflexivity.
Defined.
